(** * Power plant performance model (coupling/powerplant.py)

    A shallow embedding of the [model] class and of the module-level
    root finder [newton] of [coupling/powerplant.py], together with the
    properties of the performance-mapping engine that the specification
    states about them.

    Numbers.  Python floats are modelled by exact rationals ([Q]); the
    tolerances of the source ([1e-4], [1e-5], [1e-3]) are the rationals
    of the same decimal value.  Rounding, [nan] and [inf] are outside the
    model; a division by zero raises [ZeroDivisionError] as it does for
    Python floats.

    Effects.  Methods of [model] are functions on an explicit [world]
    (the instance, the file system and the output written so far) that
    return a Python-level outcome: a value, a raised exception, or
    [OutOfFuel] where the model's recursion budget is exhausted (proved
    unreachable for the budgets used). *)

From Stdlib Require Import QArith Qabs Lqa Lia ZArith List String Bool Sorted.
From Stdlib Require Import DecimalString.
Import ListNotations.

Open Scope Q_scope.

(** ** Python-level outcomes *)

Module Py.

Inductive exn : Type :=
| ValueError (msg : string)
| NameError (name : string)
| AttributeError (attr : string)
| KeyError (key : string)
| IndexError
| TypeError
| ZeroDivisionError
| FileNotFoundError (path : string)
| ExternalError (code : nat).

Inductive result (A : Type) : Type :=
| Ok (a : A)
| Raise (e : exn)
| OutOfFuel.

Arguments Ok {A} a.
Arguments Raise {A} e.
Arguments OutOfFuel {A}.

Definition bind {A B : Type} (r : result A) (f : A -> result B) : result B :=
  match r with
  | Ok a => f a
  | Raise e => Raise e
  | OutOfFuel => OutOfFuel
  end.

(** Float comparisons [a < b] and [a >= b]. *)
Definition ltb (a b : Q) : bool :=
  match a ?= b with Lt => true | _ => false end.

Definition geb (a b : Q) : bool := negb (ltb a b).

(** Float division [a / b]. *)
Definition div (a b : Q) : result Q :=
  if Qeq_bool b 0 then Raise ZeroDivisionError else Ok (a / b).

End Py.

Import Py.

Declare Scope py_scope.
Delimit Scope py_scope with py.
Notation "x <- c ;; k" := (Py.bind c (fun x => k))
  (at level 100, c at next level, right associativity) : py_scope.

(** ** The root finder [newton] *)

Module Newton.

(** The keyword arguments of [newton]; [None] is an absent keyword. *)
Record kwargs : Type := mk_kwargs {
  kw_val0 : option Q;
  kw_valmin : option Q;
  kw_valmax : option Q;
  kw_imax : option Z
}.

Definition no_kwargs : kwargs := mk_kwargs None None None None.

Definition get {A : Type} (o : option A) (default : A) : A :=
  match o with Some a => a | None => default end.

Section Loop.

Context {P : Type}.
Variables (func deriv : P -> Q -> Q) (params : P) (k : Q).
Variables (valmin valmax : Q) (imax : Z).

(** The [while] loop of [newton], from the state [(val, res, i)].
    The second component is the value of [i] when the function
    leaves the loop. *)
Fixpoint newton_loop (fuel : nat) (val res : Q) (i : Z)
  : result Q * Z :=
  if geb (Qabs res) 1e-5 then
    match fuel with
    | O => (OutOfFuel, i)
    | S fuel' =>
        (* calculate function residual *)
        let res := k - func params val in
        (* calculate new value *)
        match div res (deriv params val) with
        | Ok d =>
            let val := val + d in
            (* check for value ranges *)
            let val := if ltb val valmin then valmin else val in
            let val := if ltb valmax val then valmax else val in
            let i := (i + 1)%Z in
            if (imax <? i)%Z then (Ok 0, i)
            else newton_loop fuel' val res i
        | Raise e => (Raise e, i)
        | OutOfFuel => (OutOfFuel, i)
        end
    end
  else (Ok val, i).

(** One update of the loop body, as a function of the current value:
    the Newton step followed by the range check. *)
Definition newton_update (val : Q) : result Q :=
  match div (k - func params val) (deriv params val) with
  | Ok d =>
      let val := val + d in
      let val := if ltb val valmin then valmin else val in
      Ok (if ltb valmax val then valmax else val)
  | Raise e => Raise e
  | OutOfFuel => OutOfFuel
  end.

End Loop.

(** [newton(func, deriv, params, k, **kwargs)], with the final
    iteration count. *)
Definition newton_run {P : Type} (func deriv : P -> Q -> Q) (params : P)
    (k : Q) (kw : kwargs) : result Q * Z :=
  (* default values *)
  let val := get (kw_val0 kw) 200 in
  let valmin := get (kw_valmin kw) 0 in
  let valmax := get (kw_valmax kw) 3000 in
  let imax := get (kw_imax kw) 10%Z in
  (* start newton loop *)
  let res := 1 in
  let i := 0%Z in
  newton_loop func deriv params k valmin valmax imax
    (S (Z.to_nat imax)) val res i.

Definition newton {P : Type} (func deriv : P -> Q -> Q) (params : P)
    (k : Q) (kw : kwargs) : result Q :=
  fst (newton_run func deriv params k kw).

End Newton.

(** ** The external network solver (tespy)

    The source imports the tespy package; its classes are not part of the
    repository.  The types below hold what [powerplant.py] reads and
    writes on a network, as section 6 of the specification lists it:
    named busses with a power target that is set or free, named
    connections with pressure and mass flow that are set or free, named
    components with a length, a design or off-design solve that reports
    a residual, and saving of the converged state.  The solve itself is
    a parameter of the development. *)

Module Tespy.

(** Modelled from the spec: a keyword value passed to [set_attr], a
    number or [np.nan] (a value marked free). *)
Inductive kwval : Type :=
| Nan
| Val (q : Q).

(** Modelled from the spec: a bus.  [P_val] is [bus.P.val]; [P_set]
    tells whether the power is a target or free. *)
Record bus : Type := mk_bus {
  P_val : Q;
  P_set : bool
}.

(** Modelled from the spec: a connection.  [s_label] and [t_label] are
    the labels of its source and target components ([c.s.label],
    [c.t.label]); [p_set] and [m_set] tell whether pressure and mass
    flow are targets or free; [m_val_SI] is [c.m.val_SI]. *)
Record connection : Type := mk_connection {
  s_label : string;
  t_label : string;
  p_val : Q;
  p_set : bool;
  m_val : Q;
  m_set : bool;
  m_val_SI : Q
}.

(** Modelled from the spec: a component with a length (the pipe). *)
Record component : Type := mk_component {
  L : Q
}.

(** Modelled from the spec: a network.  [busses], [conns] and [comps]
    hold the objects in creation order under their names: [busses[0]]
    is the head of
    [busses], [conns.index] is the order of [conns], and the
    dictionaries [imp_busses], [imp_conns], [imp_comps] are lookups by
    name into the same lists, so that an object reached through either
    is the same object.  [res] is the history of residuals. *)
Record network : Type := mk_network {
  busses : list (string * bus);
  conns : list (string * connection);
  comps : list (string * component);
  res : list Q
}.

(** The object stored under [key], if any. *)
Fixpoint lookup {A : Type} (key : string) (l : list (string * A))
  : option A :=
  match l with
  | [] => None
  | (k, a) :: l' => if String.eqb k key then Some a else lookup key l'
  end.

(** In-place update of the object stored under [key]. *)
Fixpoint update {A : Type} (key : string) (f : A -> A)
    (l : list (string * A)) : list (string * A) :=
  match l with
  | [] => []
  | (k, a) :: l' =>
      if String.eqb k key then (k, f a) :: l'
      else (k, a) :: update key f l'
  end.

(** Modelled from the spec: the effect of one keyword of [set_attr] on
    a value and on its mark; an absent keyword changes nothing, [np.nan]
    marks the value free, a number sets the value and marks it a
    target. *)
Definition set_kw (kw : option kwval) (val : Q) (is_set : bool)
  : Q * bool :=
  match kw with
  | None => (val, is_set)
  | Some Nan => (val, false)
  | Some (Val q) => (q, true)
  end.

(** [b.set_attr(P=...)] *)
Definition bus_set_attr (P : option kwval) (b : bus) : bus :=
  let '(v, s) := set_kw P (P_val b) (P_set b) in mk_bus v s.

(** [c.set_attr(p=..., m=...)] *)
Definition conn_set_attr (p m : option kwval) (c : connection)
  : connection :=
  let '(pv, ps) := set_kw p (p_val c) (p_set c) in
  let '(mv, ms) := set_kw m (m_val c) (m_set c) in
  mk_connection (s_label c) (t_label c) pv ps mv ms (m_val_SI c).

(** [comp.set_attr(L=...)] *)
Definition comp_set_attr (len : Q) (c : component) : component :=
  mk_component len.

(** [nw.imp_busses[label].set_attr(P=...)] *)
Definition imp_busses_set_attr (label : string) (P : option kwval)
    (nw : network) : result network :=
  match lookup label (busses nw) with
  | None => Raise (KeyError label)
  | Some _ =>
      Ok (mk_network (update label (bus_set_attr P) (busses nw))
            (conns nw) (comps nw) (res nw))
  end.

(** [nw.imp_conns[id].set_attr(p=..., m=...)] *)
Definition imp_conns_set_attr (id : string) (p m : option kwval)
    (nw : network) : result network :=
  match lookup id (conns nw) with
  | None => Raise (KeyError id)
  | Some _ =>
      Ok (mk_network (busses nw)
            (update id (conn_set_attr p m) (conns nw))
            (comps nw) (res nw))
  end.

(** [nw.imp_comps[label].set_attr(L=...)] *)
Definition imp_comps_set_attr (label : string) (len : Q)
    (nw : network) : result network :=
  match lookup label (comps nw) with
  | None => Raise (KeyError label)
  | Some _ =>
      Ok (mk_network (busses nw) (conns nw)
            (update label (comp_set_attr len) (comps nw)) (res nw))
  end.

(** [nw.busses[0].set_attr(P=...)] *)
Definition busses_0_set_attr (P : option kwval) (nw : network)
  : result network :=
  match busses nw with
  | [] => Raise IndexError
  | (label, b) :: bs =>
      Ok (mk_network ((label, bus_set_attr P b) :: bs)
            (conns nw) (comps nw) (res nw))
  end.

(** [nw.busses[0].P.val] *)
Definition busses_0_P_val (nw : network) : result Q :=
  match busses nw with
  | [] => Raise IndexError
  | (_, b) :: _ => Ok (P_val b)
  end.

(** [nw.imp_conns[id].m.val_SI] *)
Definition imp_conns_m_val_SI (id : string) (nw : network) : result Q :=
  match lookup id (conns nw) with
  | None => Raise (KeyError id)
  | Some c => Ok (m_val_SI c)
  end.

(** [nw.res[-1]] *)
Definition res_last (nw : network) : result Q :=
  match rev (res nw) with
  | [] => Raise IndexError
  | r :: _ => Ok r
  end.

(** Modelled from the spec: the arguments of [nw.solve]. *)
Record solve_call : Type := mk_solve_call {
  sc_mode : string;
  sc_design_path : option string;
  sc_init_file : option string;
  sc_design_file : option string
}.

(** Modelled from the spec: what a solve leaves behind, namely the
    residual history, the mass flow of every connection, the power of
    every bus, and the exception it raised, if any. *)
Record solution : Type := mk_solution {
  sol_res : list Q;
  sol_m : string -> Q;
  sol_P : string -> Q;
  sol_raise : option exn
}.

(** Modelled from the spec: the states written by [nw.save(path)], by
    path, the most recent first. *)
Definition files : Type := list (string * network).

(** Modelled from the spec: the external solve, which sees the arguments
    of the call, the saved states and the network. *)
Definition solver_type : Type := solve_call -> files -> network -> solution.

(** Modelled from the spec: the network after a solve.  The targets stay
    as they were set; the bus powers, the mass flows and the residuals
    are those of the solution. *)
Definition apply_solution (s : solution) (nw : network) : network :=
  mk_network
    (map (fun '(label, b) => (label, mk_bus (sol_P s label) (P_set b)))
         (busses nw))
    (map (fun '(id, c) =>
            (id, mk_connection (s_label c) (t_label c) (p_val c) (p_set c)
                   (m_val c) (m_set c) (sol_m s id)))
         (conns nw))
    (comps nw)
    (sol_res s).

End Tespy.

Import Tespy.

Open Scope string_scope.
Open Scope Q_scope.

(** ** The class [model] *)

Module PowerPlant.

(** Modelled from the spec: a fitted surface
    ([scipy.interpolate.RectBivariateSpline], an external class).
    [ev x y] is [func.ev(x, y)] and [ev_dx x y] is
    [func.ev(x, y, dx=1)]. *)
Record spline : Type := mk_spline {
  ev : Q -> Q -> Q;
  ev_dx : Q -> Q -> Q
}.

(** The attributes that are set once: the constructor's arguments and
    the entries of the control file. *)
Record config : Type := mk_config {
  min_well_depth : Q;
  num_wells : Z;
  p_max : Q;
  p_min : Q;
  wdir : string;
  method : string;
  p_nom : Q;
  power_nominal_charge : Q;
  power_nominal_discharge : Q;
  power_bus_charge : string;
  power_bus_discharge : string;
  storage_connection_charge : string;
  storage_connection_discharge : string;
  pipe : string;
  massflow_min_rel : Q;
  massflow_charge_max : Q;
  massflow_discharge_max : Q;
  tespy_charge_path : string;
  tespy_discharge_path : string;
  spline_charge_path : string;
  spline_discharge_path : string
}.

(** The instance.  [cas_charge] and [cas_discharge] are attributes that
    exist only once [get_power] has created them ([None]: [hasattr] is
    false); each refers to a connection of the network of its mode. *)
Record model : Type := mk_model {
  attrs :> config;
  tespy_charge : network;
  tespy_discharge : network;
  cas_charge : option string;
  cas_discharge : option string;
  spline_charge : spline;
  spline_discharge : spline
}.

(** The messages of the source, by what they report; the numbers are
    the ones the source formats into the text. *)
Inductive message : Type :=
| PressureBelowMinimum (min value : Q)
| PressureAboveMaximum (max value : Q)
| CouldNotFindSolution (power pressure : Q)
| MassFlowBelowMinimumFor (power pressure : Q)
| MassFlowAboveMaximumFor (power pressure : Q)
| CalculationSuccessful (power pressure m : Q)
| MassflowBelowMinimum (min value : Q)
| MassflowAboveMaximum (max value : Q)
| NominalMassFlow (mode : string) (m power p : Q).

(** What a call leaves in the world besides its result.  [Log] and
    [Print] are the output of the source; [Solve] and [Call] record
    that the solver was invoked on the network held by an attribute
    and that a method was entered. *)
Inductive event : Type :=
| Log (level : string) (msg : message)
| Print (msg : message)
| Solve (attr : string) (call : solve_call)
| Call (name : string) (x pressure : Q) (mode : string).

(** The instance, the saved network states and the events so far, most
    recent first. *)
Record world : Type := mk_world {
  self : model;
  disk : files;
  out : list event
}.

(** What [get_mass_flow] returns: a pair or, on the spline path, a
    single number. *)
Inductive pyval : Type :=
| VNum (q : Q)
| VTuple (a b : Q).

(** A statement or a method body: it runs in a world and leaves an
    outcome and a world. *)
Definition M (A : Type) : Type := world -> result A * world.

Definition ret {A : Type} (a : A) : M A := fun w => (Ok a, w).

Definition raise {A : Type} (e : exn) : M A := fun w => (Raise e, w).

Definition mbind {A B : Type} (m : M A) (f : A -> M B) : M B :=
  fun w =>
    match m w with
    | (Ok a, w') => f a w'
    | (Raise e, w') => (Raise e, w')
    | (OutOfFuel, w') => (OutOfFuel, w')
    end.

(** [try: body except: handler] with a bare [except]. *)
Definition try_except {A : Type} (body handler : M A) : M A :=
  fun w =>
    match body w with
    | (Raise _, w') => handler w'
    | r => r
    end.

Definition add_event (e : event) (w : world) : world :=
  mk_world (self w) (disk w) (e :: out w).

Definition emit (e : event) : M unit := fun w => (Ok tt, add_event e w).

Definition logging_error (msg : message) : M unit := emit (Log "error" msg).
Definition logging_warning (msg : message) : M unit :=
  emit (Log "warning" msg).
Definition logging_info (msg : message) : M unit := emit (Log "info" msg).
Definition print (msg : message) : M unit := emit (Print msg).

(** The two networks of the instance, by attribute. *)
Inductive net : Type := charge | discharge.

Definition net_attr (n : net) : string :=
  match n with
  | charge => "tespy_charge"
  | discharge => "tespy_discharge"
  end.

Definition get_net (n : net) (s : model) : network :=
  match n with
  | charge => tespy_charge s
  | discharge => tespy_discharge s
  end.

Definition set_net (n : net) (nw : network) (s : model) : model :=
  match n with
  | charge =>
      mk_model s nw (tespy_discharge s) (cas_charge s) (cas_discharge s)
        (spline_charge s) (spline_discharge s)
  | discharge =>
      mk_model s (tespy_charge s) nw (cas_charge s) (cas_discharge s)
        (spline_charge s) (spline_discharge s)
  end.

Definition get_cas (n : net) (s : model) : option string :=
  match n with
  | charge => cas_charge s
  | discharge => cas_discharge s
  end.

Definition cas_attr (n : net) : string :=
  match n with
  | charge => "cas_charge"
  | discharge => "cas_discharge"
  end.

Definition set_cas (n : net) (id : string) (s : model) : model :=
  match n with
  | charge =>
      mk_model s (tespy_charge s) (tespy_discharge s) (Some id)
        (cas_discharge s) (spline_charge s) (spline_discharge s)
  | discharge =>
      mk_model s (tespy_charge s) (tespy_discharge s) (cas_charge s)
        (Some id) (spline_charge s) (spline_discharge s)
  end.

(** A mutating method call on one of the networks. *)
Definition on_net (n : net) (f : network -> result network) : M unit :=
  fun w =>
    match f (get_net n (self w)) with
    | Ok nw => (Ok tt, mk_world (set_net n nw (self w)) (disk w) (out w))
    | Raise e => (Raise e, w)
    | OutOfFuel => (OutOfFuel, w)
    end.

(** A read of one of the networks. *)
Definition read_net {A : Type} (n : net) (f : network -> result A) : M A :=
  fun w => (f (get_net n (self w)), w).

(** [self.cas_charge.m.val_SI] and [self.cas_discharge.m.val_SI] *)
Definition cas_m_val_SI (n : net) : M Q :=
  fun w =>
    match get_cas n (self w) with
    | None => (Raise (AttributeError (cas_attr n)), w)
    | Some id => (imp_conns_m_val_SI id (get_net n (self w)), w)
    end.

(** [self.cas_charge = c] *)
Definition assign_cas (n : net) (id : string) : M unit :=
  fun w => (Ok tt, mk_world (set_cas n id (self w)) (disk w) (out w)).

(** [nw.save(path)] *)
Definition save (n : net) (path : string) : M unit :=
  fun w =>
    (Ok tt,
     mk_world (self w) ((path, get_net n (self w)) :: disk w) (out w)).

(** The first connection of [conns.index] that passes [test]. *)
Fixpoint first_conn (test : connection -> bool)
    (l : list (string * connection)) : option string :=
  match l with
  | [] => None
  | (id, c) :: l' => if test c then Some id else first_conn test l'
  end.

(** [reverse_2d(params, y)] with [params = [func, x1, x2]] *)
Definition reverse_2d (params : spline * Q * Q) (y : Q) : Q :=
  let '(func, x1, x2) := params in
  x2 - ev func y x1.

(** [reverse_2d_deriv(params, y)] *)
Definition reverse_2d_deriv (params : spline * Q * Q) (y : Q) : Q :=
  let '(func, x1, _) := params in
  - ev_dx func y x1.

Declare Scope m_scope.
Delimit Scope m_scope with m.
Notation "x <- c ;; k" := (mbind c (fun x => k))
  (at level 100, c at next level, right associativity) : m_scope.
Notation "c ;; k" := (mbind c (fun _ => k))
  (at level 100, right associativity) : m_scope.

Definition get_self : M model := fun w => (Ok (self w), w).

Definition out_of_fuel {A : Type} : M A := fun w => (OutOfFuel, w).

Definition lift {A : Type} (r : result A) : M A := fun w => (r, w).

(** [self.cas_charge.set_attr(...)]: the connection is reached through
    the reference held by the instance. *)
Definition cas_set_attr (n : net) (id : string) (p m : option kwval)
  : M unit :=
  on_net n (fun nw =>
    Ok (mk_network (busses nw) (update id (conn_set_attr p m) (conns nw))
          (comps nw) (res nw))).

(** [x - massflow] for the value [x] returned by [get_mass_flow]. *)
Definition sub (x : pyval) (massflow : Q) : result Q :=
  match x with
  | VNum q => Ok (q - massflow)
  | VTuple _ _ => Raise TypeError
  end.

Section Methods.

Variable solver : solver_type.

Local Open Scope m_scope.

(** [nw.solve(...)] on the network of attribute [n]. *)
Definition solve (n : net) (call : solve_call) : M unit :=
  fun w =>
    let nw := get_net n (self w) in
    let s := solver call (disk w) nw in
    let w' :=
      add_event (Solve (net_attr n) call)
        (mk_world (set_net n (apply_solution s nw) (self w)) (disk w)
           (out w)) in
    match sol_raise s with
    | Some e => (Raise e, w')
    | None => (Ok tt, w')
    end.

Definition power_plant_layout : M unit :=
  s <- get_self ;;
  (* charging *)
  on_net charge
    (imp_busses_set_attr (power_bus_charge s)
       (Some (Val (power_nominal_charge s)))) ;;
  on_net charge
    (imp_conns_set_attr (storage_connection_charge s)
       (Some (Val (p_nom s))) (Some Nan)) ;;
  on_net charge (imp_comps_set_attr (pipe s) (min_well_depth s)) ;;
  solve charge (mk_solve_call "design" None None None) ;;
  save charge (wdir s ++ "charge_design") ;;
  m <- read_net charge
         (imp_conns_m_val_SI (storage_connection_charge s)) ;;
  logging_info
    (NominalMassFlow "charging" m (power_nominal_charge s) (p_nom s)) ;;
  (* discharging *)
  on_net discharge
    (imp_busses_set_attr (power_bus_discharge s)
       (Some (Val (power_nominal_discharge s)))) ;;
  on_net discharge
    (imp_conns_set_attr (storage_connection_discharge s)
       (Some (Val (p_nom s))) (Some Nan)) ;;
  on_net charge (imp_comps_set_attr (pipe s) (min_well_depth s)) ;;
  solve discharge (mk_solve_call "design" None None None) ;;
  save charge (wdir s ++ "discharge_design") ;;
  m <- read_net discharge
         (imp_conns_m_val_SI (storage_connection_discharge s)) ;;
  logging_info
    (NominalMassFlow "discharging" m (power_nominal_discharge s)
       (p_nom s)).

(** [get_mass_flow] and [get_power] call each other and [get_power]
    calls itself; [fuel] bounds the depth of these calls. *)
Fixpoint get_mass_flow (fuel : nat) (power pressure : Q) (mode : string)
    {struct fuel} : M pyval :=
  match fuel with
  | O => out_of_fuel
  | S fuel' =>
    emit (Call "get_mass_flow" power pressure mode) ;;
    s <- get_self ;;
    if ltb (pressure + 1e-4) (p_min s) then
      logging_error (PressureBelowMinimum (p_min s) pressure) ;;
      ret (VTuple 0 0)
    else if ltb (p_max s) (pressure - 1e-4) then
      logging_error (PressureAboveMaximum (p_max s) pressure) ;;
      ret (VTuple 0 0)
    else if (method s =? "tespy")%string then
      if (mode =? "charging")%string then
        (* if power too small *)
        if ltb (Qabs power) (Qabs (power_nominal_charge s / 100)) then
          ret (VTuple 0 0)
        else
          let design_path := (wdir s ++ "charge_design")%string in
          (* set power of bus *)
          on_net charge
            (imp_busses_set_attr (power_bus_charge s)
               (Some (Val power))) ;;
          (* set pressure at interface *)
          on_net charge
            (imp_conns_set_attr (storage_connection_charge s)
               (Some (Val pressure)) (Some Nan)) ;;
          try_except
            (solve charge
               (mk_solve_call "offdesign" (Some design_path) None None) ;;
             r <- read_net charge res_last ;;
             if ltb 1e-3 r then
               logging_error (CouldNotFindSolution power pressure) ;;
               ret (VTuple 0 0)
             else
               m1 <- cas_m_val_SI charge ;;
               if ltb m1 (massflow_min_rel s * massflow_charge_max s) then
                 logging_error (MassFlowBelowMinimumFor power pressure) ;;
                 ret (VTuple 0 0)
               else
                 m2 <- cas_m_val_SI charge ;;
                 if ltb (massflow_charge_max s) m2 then
                   logging_warning
                     (MassFlowAboveMaximumFor power pressure) ;;
                   p <- get_power fuel' (massflow_charge_max s)
                          pressure mode ;;
                   ret (VTuple (massflow_charge_max s) p)
                 else
                   m <- read_net charge
                          (imp_conns_m_val_SI
                             (storage_connection_charge s)) ;;
                   logging_info
                     (CalculationSuccessful power pressure m) ;;
                   ret (VTuple m power))
            (logging_error (CouldNotFindSolution power pressure) ;;
             ret (VTuple 0 0))
      else if (mode =? "discharging")%string then
        if ltb (Qabs power) (Qabs (power_nominal_discharge s / 100)) then
          ret (VTuple 0 0)
        else
          let design_path := (wdir s ++ "discharge_design")%string in
          (* set power of bus *)
          on_net discharge
            (imp_busses_set_attr (power_bus_discharge s)
               (Some (Val power))) ;;
          (* set pressure at interface *)
          on_net discharge
            (imp_conns_set_attr (storage_connection_discharge s)
               (Some (Val pressure)) (Some Nan)) ;;
          try_except
            (solve discharge
               (mk_solve_call "offdesign" (Some design_path) None None) ;;
             r <- read_net discharge res_last ;;
             if ltb 1e-3 r then
               print (CouldNotFindSolution power pressure) ;;
               ret (VTuple 0 0)
             else
               m1 <- cas_m_val_SI discharge ;;
               if ltb m1
                    (massflow_min_rel s * massflow_discharge_max s) then
                 print (MassFlowBelowMinimumFor power pressure) ;;
                 ret (VTuple 0 0)
               else
                 m2 <- cas_m_val_SI discharge ;;
                 if ltb (massflow_discharge_max s) m2 then
                   print (MassFlowAboveMaximumFor power pressure) ;;
                   p <- get_power fuel' (massflow_discharge_max s)
                          pressure mode ;;
                   ret (VTuple (massflow_discharge_max s) p)
                 else
                   m <- read_net discharge
                          (imp_conns_m_val_SI
                             (storage_connection_discharge s)) ;;
                   ret (VTuple m power))
            (print (CouldNotFindSolution power pressure) ;;
             ret (VTuple 0 0))
      else
        raise (ValueError "Mode must be charging or discharging.")
    else if (method s =? "spline")%string then
      sel <- (if (mode =? "charging")%string then
                ret (spline_charge s, power)
              else if (mode =? "discharging")%string then
                ret (spline_discharge s, - power)
              else
                raise
                  (ValueError "Mode must be charging or discharging.")) ;;
      let '(func, power) := sel in
      mass_flow <- lift
                     (Newton.newton reverse_2d reverse_2d_deriv
                        (func, pressure, power) 0 Newton.no_kwargs) ;;
      (if Qeq_bool mass_flow 0 then
         print (CouldNotFindSolution power pressure)
       else ret tt) ;;
      ret (VNum mass_flow)
    else
      raise (ValueError "Method must be tespy or spline.")
  end

with get_power (fuel : nat) (massflow pressure : Q) (mode : string)
    {struct fuel} : M Q :=
  match fuel with
  | O => out_of_fuel
  | S fuel' =>
    emit (Call "get_power" massflow pressure mode) ;;
    s <- get_self ;;
    if ltb (pressure + 1e-4) (p_min s) then
      print (PressureBelowMinimum (p_min s) pressure) ;;
      ret 0
    else if ltb (p_max s) (pressure - 1e-4) then
      print (PressureAboveMaximum (p_max s) pressure) ;;
      ret 0
    else if (method s =? "tespy")%string then
      if (mode =? "charging")%string then
        let m_min := massflow_min_rel s * massflow_charge_max s in
        let m_max := massflow_charge_max s in
        if ltb massflow (m_min - 1e-4) then
          print (MassflowBelowMinimum m_min massflow) ;;
          ret 0
        else if ltb (m_max + 1e-4) massflow then
          print (MassflowAboveMaximum m_max massflow) ;;
          get_power fuel' m_max pressure mode
        else
          let init_file := (tespy_charge_path s ++ "/results.csv")%string in
          on_net charge (busses_0_set_attr (Some Nan)) ;;
          (* set mass flow and pressure at interface *)
          s' <- get_self ;;
          match cas_charge s' with
          | Some id =>
              cas_set_attr charge id (Some (Val pressure)) None ;;
              cas_set_attr charge id None (Some (Val massflow))
          | None =>
              match first_conn (fun c => (t_label c =? "cas")%string)
                      (conns (tespy_charge s')) with
              | Some id =>
                  assign_cas charge id ;;
                  cas_set_attr charge id (Some (Val pressure)) None ;;
                  cas_set_attr charge id None (Some (Val massflow))
              | None => ret tt
              end
          end ;;
          solve charge
            (mk_solve_call "offdesign" None (Some init_file)
               (Some init_file)) ;;
          read_net charge busses_0_P_val
      else if (mode =? "discharging")%string then
        let m_min := massflow_min_rel s * massflow_discharge_max s in
        let m_max := massflow_discharge_max s in
        if ltb massflow (m_min - 1e-4) then
          print (MassflowBelowMinimum m_min massflow) ;;
          ret 0
        else if ltb (m_max + 1e-4) massflow then
          print (MassflowAboveMaximum m_max massflow) ;;
          get_power fuel' m_max pressure mode
        else
          let init_file :=
            (tespy_discharge_path s ++ "/results.csv")%string in
          on_net discharge (busses_0_set_attr (Some Nan)) ;;
          (* set mass flow and pressure at interface *)
          s' <- get_self ;;
          match cas_discharge s' with
          | Some id =>
              cas_set_attr discharge id (Some (Val pressure)) None ;;
              cas_set_attr discharge id None (Some (Val massflow))
          | None =>
              match first_conn (fun c => (s_label c =? "cas")%string)
                      (conns (tespy_discharge s')) with
              | Some id =>
                  assign_cas discharge id ;;
                  cas_set_attr discharge id (Some (Val pressure)) None ;;
                  cas_set_attr discharge id None (Some (Val massflow))
              | None => ret tt
              end
          end ;;
          solve discharge
            (mk_solve_call "offdesign" None (Some init_file)
               (Some init_file)) ;;
          read_net discharge busses_0_P_val
      else
        raise (ValueError "Mode must be charge or discharge.")
    else if (method s =? "spline")%string then
      if (mode =? "charging")%string then
        let val := ev (spline_charge s) massflow pressure in
        x <- get_mass_flow fuel' val pressure mode ;;
        d <- lift (sub x massflow) ;;
        q <- lift (div d massflow) ;;
        if ltb (Qabs q) 1e-5 then ret val else ret 0
      else if (mode =? "discharging")%string then
        let val := ev (spline_discharge s) massflow pressure in
        x <- get_mass_flow fuel' val pressure mode ;;
        d <- lift (sub x massflow) ;;
        q <- lift (div d massflow) ;;
        if ltb (Qabs q) 1e-5 then ret val else ret 0
      else
        raise (ValueError "Mode must be charge or discharge.")
    else
      raise (ValueError "Method must be tespy or spline.")
  end.

End Methods.

(** The pressure passes both range checks of [get_mass_flow] and
    [get_power]. *)
Definition in_range (s : model) (pressure : Q) : Prop :=
  p_min s <= pressure + 1e-4 /\ pressure - 1e-4 <= p_max s.

(** How many times the method [name] was entered. *)
Fixpoint count_calls (name : string) (l : list event) : nat :=
  match l with
  | [] => O
  | Call n _ _ _ :: l' =>
      if (n =? name)%string then S (count_calls name l')
      else count_calls name l'
  | _ :: l' => count_calls name l'
  end.

(** The outcome [x] of a computation started in [w] is not a lack of
    fuel, and [get_power] was entered [k] times on the way. *)
Definition entered {A : Type} (k : nat) (w : world) (x : result A * world)
  : Prop :=
  fst x <> OutOfFuel /\
  count_calls "get_power" (out (snd x))
  = (k + count_calls "get_power" (out w))%nat.

(** A computation that enters no method and does not run out of
    fuel. *)
Definition quiet {A : Type} (c : M A) : Prop :=
  forall w, entered 0 w (c w).

(** A computation that does not create the attribute [cas_charge]. *)
Definition keeps_absent {A : Type} (c : M A) : Prop :=
  forall w,
    cas_charge (self w) = None -> cas_charge (self (snd (c w))) = None.

(** A computation that does not run out of fuel, whatever the world. *)
Definition total {A : Type} (c : M A) : Prop :=
  forall w, fst (c w) <> OutOfFuel.

End PowerPlant.

(** ** The constructor [model.__init__]

    The constructor runs before the instance has its attributes, so it is
    modelled on the instance dictionary ([self.__dict__]) and on the
    names in scope, not on the record [PowerPlant.model]. *)

Module Constructor.

Import PowerPlant.

(** The objects the constructor handles; [PContainer] is a list or a
    dictionary nested in the control file. *)
Inductive pyobj : Type :=
| PNum (q : Q)
| PInt (z : Z)
| PStr (s : string)
| PBool (b : bool)
| PNone
| PContainer
| PFile (path : string)
| PInstance
| PGlobal (name : string)
| PBuiltin (name : string).

Definition dict : Type := list (string * pyobj).

(** [cd], the coupling data object. *)
Record coupling_data : Type := mk_coupling_data {
  working_dir : string;
  powerplant_path : string;
  scenario : string
}.

(** An element of a list of the control file, as far as [dict.update]
    looks into it: a number, a boolean or [null]; a string; a list,
    with its elements; a dictionary, with its keys in order. *)
Inductive element : Type :=
| EScalar
| EStr (s : string)
| EList (items : list pyobj)
| EDict (keys : list string).

(** A JSON document that is not an object: a number, a boolean or
    [null]; a string; a list. *)
Inductive document : Type :=
| DScalar
| DStr (s : string)
| DList (items : list element).

(** What [json.load] makes of a file: the entries of a JSON object,
    another JSON value, or a decoding error. *)
Inductive file : Type :=
| JsonObject (entries : dict)
| JsonOther (doc : document)
| Malformed.

Inductive json : Type :=
| JObject (entries : dict)
| JValue (doc : document).

(** The file system, by path. *)
Definition filesystem : Type := string -> option file.

(** [d[key] = v] *)
Fixpoint setitem (key : string) (v : pyobj) (d : dict) : dict :=
  match d with
  | [] => [(key, v)]
  | (k, a) :: d' =>
      if String.eqb k key then (k, v) :: d'
      else (k, a) :: setitem key v d'
  end.

(** The characters of a string, each a string of its own. *)
Definition chars (s : string) : list string :=
  map (fun c => String c EmptyString) (list_ascii_of_string s).

(** [list(e)]: the items of an element that can be iterated. *)
Definition sequence (e : element) : option (list pyobj) :=
  match e with
  | EScalar => None
  | EStr s => Some (map PStr (chars s))
  | EList items => Some items
  | EDict keys => Some (map PStr keys)
  end.

(** [str(n)] *)
Definition str (n : nat) : string := NilZero.string_of_uint (Nat.to_uint n).

(** What [d.update] does with one element of a sequence: the element
    must be a sequence itself, of two items, the key and the value, and
    the key must be hashable.  A key that is not a string is stored
    all the same, but it names no attribute: the dictionary of the
    model, which holds the names, stays as it is. *)
Definition update_element (index : nat) (e : element) (d : dict)
  : result dict :=
  match sequence e with
  | None => Raise TypeError
  | Some [k; v] =>
      match k with
      | PContainer => Raise TypeError
      | PStr key => Ok (setitem key v d)
      | _ => Ok d
      end
  | Some l =>
      Raise
        (ValueError
           ("dictionary update sequence element #" ++ str index
            ++ " has length " ++ str (List.length l)
            ++ "; 2 is required"))
  end.

(** The elements in order, from the one of number [index]; the first
    that is refused ends the update. *)
Fixpoint update_sequence (index : nat) (l : list element) (d : dict)
  : result dict :=
  match l with
  | [] => Ok d
  | e :: l' =>
      bind (update_element index e d) (update_sequence (S index) l')
  end.

(** [d.update(doc)].  An object gives its entries.  Any other document
    is taken as a sequence of pairs: a list by its elements, a string
    by its characters; a number, a boolean or [null] cannot be
    iterated. *)
Definition dict_update (doc : json) (d : dict) : result dict :=
  match doc with
  | JObject kvs => Ok (fold_left (fun d '(k, v) => setitem k v d) kvs d)
  | JValue DScalar => Raise TypeError
  | JValue (DStr s) => update_sequence 0 (map EStr (chars s)) d
  | JValue (DList items) => update_sequence 0 items d
  end.

(** [open(path)] *)
Definition open (fs : filesystem) (path : string) : result file :=
  match fs path with
  | Some f => Ok f
  | None => Raise (FileNotFoundError path)
  end.

(** [json.load(f)] *)
Definition json_load (f : file) : result json :=
  match f with
  | JsonObject kvs => Ok (JObject kvs)
  | JsonOther doc => Ok (JValue doc)
  | Malformed => Raise (ValueError "JSONDecodeError")
  end.

(** [self.name] *)
Definition getattr (self : dict) (name : string) : result pyobj :=
  match lookup name self with
  | Some v => Ok v
  | None => Raise (AttributeError name)
  end.

(** [a + b] *)
Definition add (a b : pyobj) : result pyobj :=
  match a, b with
  | PStr x, PStr y => Ok (PStr (x ++ y))
  | PNum x, PNum y => Ok (PNum (x + y))
  | PInt x, PInt y => Ok (PInt (x + y))
  | _, _ => Raise TypeError
  end.

(** The names bound at module level when [__init__] runs: the imports
    and the definitions of the module. *)
Definition module_globals : list string :=
  ["pd"; "np"; "json"; "interpolate"; "logging"; "nwkr"; "logger";
   "model"; "reverse_2d"; "reverse_2d_deriv"; "newton";
   "__name__"; "__doc__"; "__file__"; "__package__"; "__loader__";
   "__spec__"; "__builtins__"].

(** The names of Python's builtin functions and constants. *)
Definition builtins : list string :=
  ["abs"; "all"; "any"; "ascii"; "bin"; "bool"; "breakpoint";
   "bytearray"; "bytes"; "callable"; "chr"; "classmethod"; "compile";
   "complex"; "delattr"; "dict"; "dir"; "divmod"; "enumerate"; "eval";
   "exec"; "filter"; "float"; "format"; "frozenset"; "getattr";
   "globals"; "hasattr"; "hash"; "help"; "hex"; "id"; "input"; "int";
   "isinstance"; "issubclass"; "iter"; "len"; "list"; "locals"; "map";
   "max"; "memoryview"; "min"; "next"; "object"; "oct"; "open"; "ord";
   "pow"; "print"; "property"; "range"; "repr"; "reversed"; "round";
   "set"; "setattr"; "slice"; "sorted"; "staticmethod"; "str"; "sum";
   "super"; "tuple"; "type"; "vars"; "zip"; "__import__";
   "True"; "False"; "None"; "NotImplemented"; "Ellipsis"; "__debug__"].

Definition mem (name : string) (l : list string) : bool :=
  existsb (String.eqb name) l.

(** The value of a bare name: local scope, then module scope, then the
    builtins; [NameError] when no scope binds it. *)
Definition load_name (locals : dict) (name : string) : result pyobj :=
  match lookup name locals with
  | Some v => Ok v
  | None =>
      if mem name module_globals then Ok (PGlobal name)
      else if mem name builtins then Ok (PBuiltin name)
      else Raise (NameError name)
  end.

Section Init.

(** The statements of [__init__] from the call of [nwkr.load_nwk] on:
    they load the two networks from the path computed for the first,
    run the layout and fit the splines, all with external packages. *)
Variable remainder : dict -> pyobj -> result dict.

Local Open Scope py_scope.

Definition __init__ (fs : filesystem) (cd : coupling_data)
    (min_well_depth : Q) (num_wells : Z) (p_max p_min : Q)
  : result dict :=
  let self := [] in
  (* well information *)
  let self := setitem "min_well_depth" (PNum min_well_depth) self in
  let self := setitem "num_wells" (PInt num_wells) self in
  (* pressure limits *)
  let self := setitem "p_max" (PNum p_max) self in
  let self := setitem "p_min" (PNum p_min) self in
  let path :=
    (working_dir cd ++ powerplant_path cd ++ scenario cd
       ++ ".powerplant_ctrl.json")%string in
  let self :=
    setitem "wdir" (PStr (working_dir cd ++ powerplant_path cd)) self in
  f <- open fs path ;;
  doc <- json_load f ;;
  self <- dict_update doc self ;;
  let locals :=
    [("self", PInstance);
     ("cd", PInstance);
     ("min_well_depth", PNum min_well_depth);
     ("num_wells", PInt num_wells);
     ("p_max", PNum p_max);
     ("p_min", PNum p_min);
     ("path", PStr path);
     ("f", PFile path)] in
  (* setting paths to lookup tables *)
  a <- load_name locals "wdir" ;;
  b <- getattr self "spline_charge_path" ;;
  v <- add a b ;;
  let self := setitem "spline_charge_path" v self in
  a <- load_name locals "wdir" ;;
  b <- getattr self "spline_discharge_path" ;;
  v <- add a b ;;
  let self := setitem "spline_discharge_path" v self in
  (* load tespy models with the network_reader module *)
  a <- load_name locals "wdir" ;;
  b <- getattr self "tespy_charge_path" ;;
  v <- add a b ;;
  remainder self v.

End Init.

End Constructor.

(** ** Concrete inputs

    The functions, configurations and solvers at which the properties
    below are evaluated. *)

Module Examples.

Import Newton.

(** [f(x) = 1e-6 - 1e-8 (x - 200) + (x - 200)^3] and its derivative. *)
Definition cubic (_ : unit) (x : Q) : Q :=
  1e-6 - 1e-8 * (x - 200) + (x - 200) * (x - 200) * (x - 200).

Definition cubic_deriv (_ : unit) (x : Q) : Q :=
  - 1e-8 + 3 * (x - 200) * (x - 200).

(** [f(x) = x] and its derivative. *)
Definition identity (_ : unit) (x : Q) : Q := x.

Definition identity_deriv (_ : unit) (x : Q) : Q := 1.

Import PowerPlant.

(** The configuration of the specification's example scenario:
    pressures in [[50, 150]], at most 10 of mass flow in either mode, a
    minimum of a tenth of that, nominal powers -1000 and 500. *)
Definition a_config (method : string) : config :=
  {| min_well_depth := 700;
     num_wells := 2;
     p_max := 150;
     p_min := 50;
     wdir := "plant/";
     method := method;
     p_nom := 100;
     power_nominal_charge := - 1000;
     power_nominal_discharge := 500;
     power_bus_charge := "power";
     power_bus_discharge := "power";
     storage_connection_charge := "storage";
     storage_connection_discharge := "storage";
     pipe := "pipe";
     massflow_min_rel := 0.1;
     massflow_charge_max := 10;
     massflow_discharge_max := 10;
     tespy_charge_path := "charge";
     tespy_discharge_path := "discharge";
     spline_charge_path := "charge.csv";
     spline_discharge_path := "discharge.csv" |}.

(** A network of one bus, one pipe and one connection between the
    components labelled [s] and [t]. *)
Definition a_network (s t : string) : network :=
  {| busses := [("power", mk_bus 0 false)];
     conns := [("storage", mk_connection s t 0 false 0 false 0)];
     comps := [("pipe", mk_component 0)];
     res := [] |}.

(** A surface on which the power is [slope] times the mass flow.  The
    specification's scenario, where a mass flow of 5 takes a power of
    -1000, has the slope -200. *)
Definition a_spline (slope : Q) : spline :=
  {| ev := fun x _ => slope * x; ev_dx := fun _ _ => slope |}.

Definition a_model (method : string) : model :=
  {| attrs := a_config method;
     tespy_charge := a_network "compressor" "cas";
     tespy_discharge := a_network "cas" "turbine";
     cas_charge := None;
     cas_discharge := None;
     spline_charge := a_spline (- 200);
     spline_discharge := a_spline (- 100) |}.

Definition a_world (method : string) : world :=
  {| self := a_model method; disk := []; out := [] |}.

(** A solver that always converges: with the bus power as target the
    mass flow is a hundredth of its magnitude, with the bus power free
    the mass flow is the one set on the connection. *)
Definition a_solver : solver_type :=
  fun _ _ nw =>
    match busses nw, conns nw with
    | (_, b) :: _, (_, c) :: _ =>
        if P_set b then
          {| sol_res := [1e-6];
             sol_m := fun _ => Qred (Qabs (P_val b) / 100);
             sol_P := fun _ => P_val b;
             sol_raise := None |}
        else
          {| sol_res := [1e-6];
             sol_m := fun _ => m_val c;
             sol_P := fun _ => Qred (100 * m_val c);
             sol_raise := None |}
    | _, _ =>
        {| sol_res := [];
           sol_m := fun _ => 0;
           sol_P := fun _ => 0;
           sol_raise := Some (ExternalError 1) |}
    end.

Import Constructor.

(** A file system that holds one control file. *)
Definition a_filesystem : filesystem :=
  fun path =>
    if (path =? "work/plant/base.powerplant_ctrl.json")%string then
      Some (JsonObject
              [("method", PStr "tespy");
               ("spline_charge_path", PStr "charge.csv");
               ("spline_discharge_path", PStr "discharge.csv");
               ("tespy_charge_path", PStr "charge");
               ("tespy_discharge_path", PStr "discharge")])
    else None.

Definition a_coupling_data : coupling_data :=
  {| working_dir := "work/";
     powerplant_path := "plant/";
     scenario := "base" |}.

End Examples.

(** ** The lookup tables: [model.load_lookup] *)

Module Lookup.

Import PowerPlant.

(** Modelled from the spec: the data frame that [pd.read_csv(path,
    index_col=0)] returns, an external class.  [df_index] is the index
    (the mass flows), [df_columns] the column headers (the pressures, as
    text), [df_values] the matrix of [df.as_matrix()], one row per index
    entry. *)
Record dataframe : Type := mk_dataframe {
  df_index : list Q;
  df_columns : list string;
  df_values : list (list Q)
}.

(** [a[0] > a[-1]] on an array; an empty array has neither. *)
Definition descending (a : list Q) : result bool :=
  match a, rev a with
  | first :: _, last :: _ => Ok (ltb last first)
  | _, _ => Raise IndexError
  end.

Section Load.

(** [pd.read_csv], [float] and [interpolate.RectBivariateSpline] are
    external. *)
Variable read_csv : string -> result dataframe.
Variable float : string -> result Q.
Variable RectBivariateSpline :
  list Q -> list Q -> list (list Q) -> result spline.

Local Open Scope py_scope.

(** [list(map(float, list(df)))] *)
Fixpoint map_float (l : list string) : result (list Q) :=
  match l with
  | [] => Ok []
  | s :: l' =>
      x <- float s ;;
      xs <- map_float l' ;;
      Ok (x :: xs)
  end.

(** The statements of [load_lookup] between the read and the fit: the
    axes and the matrix as they are handed to the fit. *)
Definition axes (df : dataframe)
  : result (list Q * list Q * list (list Q)) :=
  let y := df_values df in  (* power *)
  let x1 := df_index df in  (* mass flow *)
  d1 <- descending x1 ;;
  let '(x1, y) := if d1 : bool then (rev x1, rev y) else (x1, y) in
  x2 <- map_float (df_columns df) ;;  (* pressure *)
  d2 <- descending x2 ;;
  let '(x2, y) :=
    if d2 : bool then (rev x2, map (@rev Q) y) else (x2, y) in
  Ok (x1, x2, y).

Definition load_lookup (path : string) : result spline :=
  df <- read_csv path ;;
  a <- axes df ;;
  let '(x1, x2, y) := a in
  RectBivariateSpline x1 x2 y.

End Load.

(** The matrix has one row per index entry and one cell per column. *)
Definition rectangular (rows cols : nat) (y : list (list Q)) : Prop :=
  List.length y = rows /\ Forall (fun row => List.length row = cols) y.

(** The cell of row [i] and column [j]. *)
Definition cell (y : list (list Q)) (i j : nat) : Q :=
  nth j (nth i y []) 0.

(** An axis that increases, or decreases, from each entry to the next. *)
Definition increasing (a : list Q) : Prop := StronglySorted Qlt a.

Definition decreasing (a : list Q) : Prop :=
  StronglySorted (fun x y => y < x) a.

End Lookup.

(** ** More concrete inputs *)

Module Inputs.

Import PowerPlant Lookup.

(** A table with both axes falling: mass flows 3, 2, 1 against the
    pressures 150, 100, 50. *)
Definition a_dataframe : dataframe :=
  {| df_index := [3; 2; 1];
     df_columns := ["150"; "100"; "50"]%string;
     df_values := [[33; 32; 31]; [23; 22; 21]; [13; 12; 11]] |}.

(** [float] on the headers of the table. *)
Definition a_float (s : string) : result Q :=
  if (s =? "50")%string then Ok 50
  else if (s =? "100")%string then Ok 100
  else if (s =? "150")%string then Ok 150
  else Raise (ValueError "could not convert string to float").

(** A file system with no table but the one at ["charge.csv"]. *)
Definition a_read_csv (path : string) : result dataframe :=
  if (path =? "charge.csv")%string then Ok a_dataframe
  else Raise (FileNotFoundError path).

(** A table without rows. *)
Definition an_empty_read_csv (path : string) : result dataframe :=
  Ok {| df_index := []; df_columns := ["50"]%string; df_values := [] |}.

(** A fit that evaluates to the first cell everywhere. *)
Definition a_fit (x1 x2 : list Q) (y : list (list Q)) : result spline :=
  Ok {| ev := fun _ _ => cell y 0 0; ev_dx := fun _ _ => 0 |}.

(** A solver that raises whenever it is invoked. *)
Definition a_failing_solver : solver_type :=
  fun _ _ _ =>
    {| sol_res := [];
       sol_m := fun _ => 0;
       sol_P := fun _ => 0;
       sol_raise := Some (ExternalError 1) |}.

(** The example instance with a configuration that names the bus of
    the charging mode ["generator"]; the network has the bus
    ["power"]. *)
Definition a_misnamed_world : world :=
  {| self :=
       {| attrs :=
            mk_config 700 2 150 50 "plant/" "tespy" 100 (- 1000) 500
              "generator" "power" "storage" "storage" "pipe" 0.1 10 10
              "charge" "discharge" "charge.csv" "discharge.csv";
          tespy_charge := Examples.a_network "compressor" "cas";
          tespy_discharge := Examples.a_network "cas" "turbine";
          cas_charge := None;
          cas_discharge := None;
          spline_charge := Examples.a_spline (- 200);
          spline_discharge := Examples.a_spline (- 100) |};
     disk := [];
     out := [] |}.

(** The example instance after a first call of [get_power] in the
    mode, with a mass flow of 5 at pressure 100: the instance refers to
    the connection of the storage. *)
Definition a_prepared_world (mode : string) : world :=
  snd (get_power Examples.a_solver 1 5 100 mode (Examples.a_world "tespy")).

End Inputs.

(** ** The iterates of the root finder *)

Module Iterates.

Import Newton.

Section Iterate.

Context {P : Type}.
Variables (func deriv : P -> Q -> Q) (params : P) (k : Q).
Variables (valmin valmax : Q).

(** The value reached from [val] by [n] updates of the loop body. *)
Fixpoint iterate (n : nat) (val : Q) : result Q :=
  match n with
  | O => Ok val
  | S n' =>
      match newton_update func deriv params k valmin valmax val with
      | Ok val' => iterate n' val'
      | Raise e => Raise e
      | OutOfFuel => OutOfFuel
      end
  end.

(** The iterate after [n] updates exists and its residual is not yet
    below the tolerance of the loop. *)
Definition unconverged (val : Q) (n : nat) : Prop :=
  exists x, iterate n val = Ok x /\ 1e-5 <= Qabs (k - func params x).

End Iterate.

End Iterates.

(** ** What a method can leave behind *)

Module Observations.

Import PowerPlant.

(** A computation whose outcome is a pair or an exception, never a
    single number and never a lack of fuel. *)
Definition pair_or_raise (c : M pyval) : Prop :=
  forall w,
    match fst (c w) with
    | Ok (VTuple _ _) | Raise _ => True
    | Ok (VNum _) | OutOfFuel => False
    end.

(** A computation that leaves the reference [cas_charge] or
    [cas_discharge] as it is, once it refers to [id]. *)
Definition keeps_reference (n : net) (id : string) {A : Type} (c : M A)
  : Prop :=
  forall w,
    get_cas n (self w) = Some id -> get_cas n (self (snd (c w))) = Some id.

(** The name [key] is bound in the dictionary [l]. *)
Definition bound {A : Type} (key : string) (l : list (string * A)) : Prop :=
  lookup key l <> None.

End Observations.

(** * Properties *)

(** ** Comparisons *)

Module PyFacts.

(** The tolerances of the source as fractions, for [lra]. *)
Ltac decimals :=
  change 1e-3 with (1 # 1000) in *;
  change 1e-4 with (1 # 10000) in *;
  change 1e-5 with (1 # 100000) in *;
  change 1e-6 with (1 # 1000000) in *.

Lemma ltb_lt (a b : Q) : ltb a b = true <-> a < b.
Proof.
  unfold ltb. rewrite Qlt_alt. destruct (a ?= b); split; congruence.
Qed.

Lemma ltb_ge (a b : Q) : ltb a b = false <-> b <= a.
Proof.
  unfold ltb. rewrite Qle_alt, <- (Qcompare_antisym a b).
  destruct (a ?= b); simpl; split; congruence.
Qed.

Lemma geb_ge (a b : Q) : geb a b = true <-> b <= a.
Proof. unfold geb. rewrite negb_true_iff. apply ltb_ge. Qed.

Lemma geb_lt (a b : Q) : geb a b = false <-> a < b.
Proof. unfold geb. rewrite negb_false_iff. apply ltb_lt. Qed.

End PyFacts.

(** ** The root finder *)

Module NewtonFacts.

Import Newton PyFacts.

Section Loop.

Context {P : Type}.
Variables (func deriv : P -> Q -> Q) (params : P) (k : Q).
Variables (valmin valmax : Q) (imax : Z).

Local Abbreviation loop :=
  (newton_loop func deriv params k valmin valmax imax).
Local Abbreviation update :=
  (newton_update func deriv params k valmin valmax).

(** The loop body is the update: one more round of the loop from
    [val] continues from [update val]. *)
Lemma newton_loop_step (fuel : nat) (val res : Q) (i : Z) (v : Q) :
  1e-5 <= Qabs res ->
  update val = Ok v ->
  loop (S fuel) val res i =
    if (imax <? i + 1)%Z then (Ok 0, (i + 1)%Z)
    else loop fuel v (k - func params val) (i + 1)%Z.
Proof.
  intros Hres Hup. unfold newton_update in Hup.
  cbn [newton_loop]. apply geb_ge in Hres. rewrite Hres.
  destruct (div (k - func params val) (deriv params val));
    [|discriminate..].
  injection Hup as <-. reflexivity.
Qed.

(** The value after an update is within the bounds. *)
Lemma newton_update_bounds (val v : Q) :
  update val = Ok v -> valmin <= valmax -> valmin <= v <= valmax.
Proof.
  unfold newton_update.
  destruct (div (k - func params val) (deriv params val)) as [d| |];
    [|discriminate..].
  intros H Hb. injection H as <-.
  destruct (ltb (val + d) valmin) eqn:E1.
  - destruct (ltb valmax valmin) eqn:E2.
    + apply ltb_lt in E2. lra.
    + apply ltb_ge in E2. lra.
  - apply ltb_ge in E1.
    destruct (ltb valmax (val + d)) eqn:E2.
    + lra.
    + apply ltb_ge in E2. lra.
Qed.

(** The budget of [imax - i + 1] rounds is never used up. *)
Lemma newton_loop_fuel (fuel : nat) :
  forall (val res : Q) (i : Z),
    (Z.to_nat (imax - i) < fuel)%nat ->
    fst (loop fuel val res i) <> OutOfFuel.
Proof.
  induction fuel as [|fuel IH]; intros val res i Hfuel; [lia|].
  cbn [newton_loop].
  destruct (geb (Qabs res) 1e-5); [|discriminate].
  destruct (div (k - func params val) (deriv params val)) eqn:D;
    [|discriminate|].
  - destruct (Z.ltb_spec imax (i + 1)); [discriminate|].
    apply IH. lia.
  - unfold div in D.
    destruct (Qeq_bool (deriv params val) 0); discriminate.
Qed.

(** What the loop returns from the state [(val, res, i)]: [val]
    itself when [res] is already small; [0] with the count above
    [imax]; or, with the count at most [imax], the update of a value
    whose residual is small. *)
Lemma newton_loop_returns (fuel : nat) :
  forall (val res : Q) (i : Z) (x : Q) (n : Z),
    loop fuel val res i = (Ok x, n) ->
    (Qabs res < 1e-5 /\ x = val /\ n = i)
    \/ ((imax < n)%Z /\ x = 0)
    \/ ((n <= imax)%Z /\
        exists x', Qabs (k - func params x') < 1e-5 /\ update x' = Ok x).
Proof.
  induction fuel as [|fuel IH]; intros val res i x n; cbn [newton_loop].
  - destruct (geb (Qabs res) 1e-5) eqn:E; [discriminate|].
    intros H. injection H as <- <-. left. apply geb_lt in E. auto.
  - destruct (geb (Qabs res) 1e-5) eqn:E.
    2:{ intros H. injection H as <- <-. left. apply geb_lt in E. auto. }
    destruct (div (k - func params val) (deriv params val)) as [d| |] eqn:D;
      [|discriminate..].
    destruct (Z.ltb_spec imax (i + 1)) as [Hi|Hi].
    + intros H. injection H as <- <-. right; left. auto.
    + intros H. apply IH in H. destruct H as [(Hr & -> & ->)|[H|H]].
      * right; right. split; [exact Hi|]. exists val. split; [exact Hr|].
        unfold newton_update. rewrite D. reflexivity.
      * right; left. exact H.
      * right; right. exact H.
Qed.

(** From a value within the bounds, the value whose residual is small
    is within the bounds too: it is the value the loop started from or
    a clamped update. *)
Lemma newton_loop_returns_within (fuel : nat) :
  forall (val res : Q) (i : Z) (x : Q) (n : Z),
    valmin <= valmax ->
    valmin <= val <= valmax ->
    loop fuel val res i = (Ok x, n) ->
    (Qabs res < 1e-5 /\ x = val /\ n = i)
    \/ ((imax < n)%Z /\ x = 0)
    \/ ((n <= imax)%Z /\
        exists x',
          valmin <= x' <= valmax /\
          Qabs (k - func params x') < 1e-5 /\ update x' = Ok x).
Proof.
  induction fuel as [|fuel IH]; intros val res i x n Hb Hval;
    cbn [newton_loop].
  - destruct (geb (Qabs res) 1e-5) eqn:E; [discriminate|].
    intros H. injection H as <- <-. left. apply geb_lt in E. auto.
  - destruct (geb (Qabs res) 1e-5) eqn:E.
    2:{ intros H. injection H as <- <-. left. apply geb_lt in E. auto. }
    destruct (update val) as [v| |] eqn:Hup; unfold newton_update in Hup;
      destruct (div (k - func params val) (deriv params val)) as [d| |] eqn:D;
      try discriminate.
    injection Hup as Hv.
    assert (Hup : update val = Ok v)
      by (unfold newton_update; rewrite D, Hv; reflexivity).
    rewrite Hv.
    destruct (Z.ltb_spec imax (i + 1)) as [Hi|Hi].
    + intros H. injection H as <- <-. right; left. auto.
    + intros H. apply IH in H;
        [|exact Hb|apply (newton_update_bounds _ _ Hup Hb)].
      destruct H as [(Hr & -> & ->)|[H|H]].
      * right; right. split; [exact Hi|]. exists val. auto.
      * right; left. exact H.
      * right; right. exact H.
Qed.

End Loop.

(** [newton] returns or raises: the rounds it is given are enough. *)
Lemma newton_total {P : Type} (func deriv : P -> Q -> Q) (params : P)
    (k : Q) (kw : kwargs) :
  newton func deriv params k kw <> OutOfFuel.
Proof.
  unfold newton, newton_run. apply newton_loop_fuel. lia.
Qed.

Import Examples.

(** C4.  With the default keywords, [newton] on the cubic
    [1e-6 - 1e-8 (x - 200) + (x - 200)^3] and target [0] returns after
    one round, well within the cap of 10, a value equal to 300, inside
    the bounds [[0, 3000]], whose residual [|k - f x|] is [1e6], not
    below [1e-5].  The residual that ended the loop is the one of the
    start value 200, computed before the update; the value returned is
    the updated one, and its residual is never looked at. *)
Theorem newton_residual_not_tested :
  exists x : Q,
    newton_run cubic cubic_deriv tt 0 no_kwargs = (Ok x, 1%Z) /\
    (1 <= 10)%Z /\
    x == 300 /\
    0 <= x <= 3000 /\
    Qabs (0 - cubic tt 200) < 1e-5 /\
    Qabs (0 - cubic tt x) == 1000000 /\
    ~ Qabs (0 - cubic tt x) < 1e-5.
Proof.
  exists (200 + (0 - cubic tt 200) / cubic_deriv tt 200).
  split; [vm_compute; reflexivity|].
  split; [lia|].
  split; [vm_compute; reflexivity|].
  split; [split; vm_compute; discriminate|].
  split; [vm_compute; reflexivity|].
  split; [vm_compute; reflexivity|].
  vm_compute. discriminate.
Qed.

End NewtonFacts.

(** ** The methods of [model] *)

Module PowerPlantFacts.

Import PowerPlant PyFacts Examples Observations.

(** The first statements of either method: the entry is recorded and
    the instance is read. *)
Ltac enter :=
  cbn [get_mass_flow get_power];
  unfold mbind at 1; cbn [emit];
  unfold mbind at 1; cbn [get_self add_event self].

(** One statement that writes a message, then the [return]. *)
Ltac leave :=
  unfold mbind, logging_error, logging_warning, logging_info, print,
    emit, ret, raise;
  cbn [add_event self disk out].

(** Projections of the worlds, instances and networks built on the
    way. *)
Ltac project :=
  cbn [self disk out add_event get_net set_net get_cas set_cas net_attr
       attrs tespy_charge tespy_discharge cas_charge cas_discharge
       spline_charge spline_discharge busses conns comps res].

Lemma not_below (s : model) (pressure : Q) :
  in_range s pressure -> ltb (pressure + 1e-4) (p_min s) = false.
Proof. intros [H _]. apply ltb_ge. exact H. Qed.

Lemma not_above (s : model) (pressure : Q) :
  in_range s pressure -> ltb (p_max s) (pressure - 1e-4) = false.
Proof. intros [_ H]. apply ltb_ge. exact H. Qed.

Section Methods.

Variable solver : solver_type.

(** *** Pressure limits *)

(** C2.  Whatever the power, the mass flow, the mode string and the
    method: below [p_min - 1e-4], [get_mass_flow] returns [(0, 0)]
    and [get_power] returns [0], each after reporting the pressure
    as below the minimum and without touching the instance; above
    [p_max + 1e-4] (with [p_min <= p_max], the invariant of the
    limits) they do the same and report it as above the maximum.
    Neither the method nor the mode has been looked at, and the
    solver has not been invoked. *)
Theorem pressure_out_of_range (fuel : nat)
    (power massflow pressure : Q) (mode : string) (w : world) :
  let s := self w in
  (pressure < p_min s - 1e-4 ->
   get_mass_flow solver (S fuel) power pressure mode w =
     (Ok (VTuple 0 0),
      add_event (Log "error" (PressureBelowMinimum (p_min s) pressure))
        (add_event (Call "get_mass_flow" power pressure mode) w)) /\
   get_power solver (S fuel) massflow pressure mode w =
     (Ok 0,
      add_event (Print (PressureBelowMinimum (p_min s) pressure))
        (add_event (Call "get_power" massflow pressure mode) w))) /\
  (p_min s <= p_max s ->
   pressure > p_max s + 1e-4 ->
   get_mass_flow solver (S fuel) power pressure mode w =
     (Ok (VTuple 0 0),
      add_event (Log "error" (PressureAboveMaximum (p_max s) pressure))
        (add_event (Call "get_mass_flow" power pressure mode) w)) /\
   get_power solver (S fuel) massflow pressure mode w =
     (Ok 0,
      add_event (Print (PressureAboveMaximum (p_max s) pressure))
        (add_event (Call "get_power" massflow pressure mode) w))).
Proof.
  intros s. split.
  - intros Hlow.
    assert (E : ltb (pressure + 1e-4) (p_min (self w)) = true)
      by (apply ltb_lt; subst s; decimals; lra).
    split; enter; rewrite E; reflexivity.
  - intros Hinv Hhigh.
    assert (E1 : ltb (pressure + 1e-4) (p_min (self w)) = false)
      by (apply ltb_ge; subst s; decimals; lra).
    assert (E2 : ltb (p_max (self w)) (pressure - 1e-4) = true)
      by (apply ltb_lt; subst s; decimals; lra).
    split; enter; rewrite E1, E2; reflexivity.
Qed.

(** *** Mode validation *)

(** C6, as the code has it.  With the pressure within the limits and
    a mode string other than ["charging"] and ["discharging"], both
    methods raise a [ValueError] and leave the instance untouched:
    the one about the mode when the method is ["tespy"] or
    ["spline"], the one about the method otherwise. *)
Theorem invalid_mode_raises (fuel : nat)
    (power massflow pressure : Q) (mode : string) (w : world) :
  in_range (self w) pressure ->
  mode <> "charging" ->
  mode <> "discharging" ->
  let known :=
    ((method (self w) =? "tespy") || (method (self w) =? "spline"))%string
  in
  get_mass_flow solver (S fuel) power pressure mode w =
    (Raise
       (ValueError
          (if known then "Mode must be charging or discharging."
           else "Method must be tespy or spline.")),
     add_event (Call "get_mass_flow" power pressure mode) w) /\
  get_power solver (S fuel) massflow pressure mode w =
    (Raise
       (ValueError
          (if known then "Mode must be charge or discharge."
           else "Method must be tespy or spline.")),
     add_event (Call "get_power" massflow pressure mode) w).
Proof.
  intros Hr Hc Hd known. subst known.
  apply String.eqb_neq in Hc, Hd.
  split; enter; rewrite (not_below _ _ Hr), (not_above _ _ Hr);
    destruct (method (self w) =? "tespy")%string;
    rewrite ?Hc, ?Hd; cbn [orb]; try reflexivity;
    destruct (method (self w) =? "spline")%string;
    rewrite ?Hc, ?Hd; reflexivity.
Qed.

(** *** The short circuit for small powers *)

(** C7.  With the method ["tespy"] and the pressure within the
    limits, a power whose magnitude is below a hundredth of the
    nominal power of the mode makes [get_mass_flow] return [(0, 0)]
    at once: nothing but the entry is recorded, so the solver has not
    been invoked and the networks are as they were. *)
Theorem small_power_short_circuit (fuel : nat)
    (power pressure : Q) (mode : string) (w : world) :
  method (self w) = "tespy" ->
  in_range (self w) pressure ->
  (mode = "charging" /\
   Qabs power < Qabs (power_nominal_charge (self w) / 100)
   \/
   mode = "discharging" /\
   Qabs power < Qabs (power_nominal_discharge (self w) / 100)) ->
  get_mass_flow solver (S fuel) power pressure mode w =
    (Ok (VTuple 0 0),
     add_event (Call "get_mass_flow" power pressure mode) w).
Proof.
  intros Hm Hr Hsmall. enter.
  rewrite (not_below _ _ Hr), (not_above _ _ Hr), Hm.
  cbn [String.eqb Ascii.eqb Bool.eqb].
  destruct Hsmall as [[-> Hp]|[-> Hp]]; apply ltb_lt in Hp;
    cbn [String.eqb Ascii.eqb Bool.eqb]; rewrite Hp; reflexivity.
Qed.

(** *** The ceiling clamp of [get_power] *)

Lemma entered_call {A : Type} (k : nat) (w : world)
    (x pressure : Q) (mode : string) (r : result A * world) :
  entered k (add_event (Call "get_power" x pressure mode) w) r ->
  entered (S k) w r.
Proof.
  intros [H1 H2]. split; [exact H1|]. rewrite H2. cbn. lia.
Qed.

Lemma entered_print {A : Type} (k : nat) (w : world) (msg : message)
    (r : result A * world) :
  entered k (add_event (Print msg) w) r -> entered k w r.
Proof. intros H. exact H. Qed.

Lemma quiet_ret {A : Type} (a : A) : quiet (ret a).
Proof. intros w. split; [discriminate|reflexivity]. Qed.

Lemma quiet_get_self : quiet get_self.
Proof. intros w. split; [discriminate|reflexivity]. Qed.

Lemma quiet_bind {A B : Type} (c : M A) (k : A -> M B) :
  quiet c -> (forall a, quiet (k a)) -> quiet (mbind c k).
Proof.
  intros Hc Hk w. unfold mbind. specialize (Hc w).
  destruct (c w) as [[a| |] w1]; destruct Hc as [Hc1 Hc2];
    cbn [fst snd] in *.
  - destruct (Hk a w1) as [H1 H2]. split; [exact H1|].
    rewrite H2, Hc2. reflexivity.
  - split; [discriminate|exact Hc2].
  - congruence.
Qed.

Lemma quiet_on_net (n : net) (f : network -> result network) :
  (forall nw, f nw <> OutOfFuel) -> quiet (on_net n f).
Proof.
  intros Hf w. unfold on_net. specialize (Hf (get_net n (self w))).
  destruct (f (get_net n (self w))); split; cbn [fst snd out];
    solve [discriminate|reflexivity|congruence].
Qed.

Lemma quiet_read_net {A : Type} (n : net) (f : network -> result A) :
  (forall nw, f nw <> OutOfFuel) -> quiet (read_net n f).
Proof. intros Hf w. split; [apply Hf|reflexivity]. Qed.

Lemma quiet_cas_set_attr (n : net) (id : string) (p m : option kwval) :
  quiet (cas_set_attr n id p m).
Proof. apply quiet_on_net. discriminate. Qed.

Lemma quiet_assign_cas (n : net) (id : string) : quiet (assign_cas n id).
Proof. intros w. split; [discriminate|reflexivity]. Qed.

Lemma quiet_solve (n : net) (call : solve_call) :
  quiet (solve solver n call).
Proof.
  intros w. unfold solve.
  destruct (sol_raise _); cbn [fst snd out add_event count_calls];
    split; solve [discriminate|reflexivity].
Qed.

Lemma busses_0_set_attr_fuel (P : option kwval) (nw : network) :
  busses_0_set_attr P nw <> OutOfFuel.
Proof.
  unfold busses_0_set_attr. destruct (busses nw) as [|[] ?]; discriminate.
Qed.

Lemma busses_0_P_val_fuel (nw : network) :
  busses_0_P_val nw <> OutOfFuel.
Proof.
  unfold busses_0_P_val. destruct (busses nw) as [|[] ?]; discriminate.
Qed.

Local Open Scope m_scope.

(** The statements of [get_power] that follow the range check of the
    mass flow, in either mode, enter no method. *)
Lemma quiet_set_and_solve (n : net) (test : connection -> bool)
    (massflow pressure : Q) (init_file : string) :
  quiet
    (on_net n (busses_0_set_attr (Some Nan)) ;;
     s' <- get_self ;;
     match get_cas n s' with
     | Some id =>
         cas_set_attr n id (Some (Val pressure)) None ;;
         cas_set_attr n id None (Some (Val massflow))
     | None =>
         match first_conn test (conns (get_net n s')) with
         | Some id =>
             assign_cas n id ;;
             cas_set_attr n id (Some (Val pressure)) None ;;
             cas_set_attr n id None (Some (Val massflow))
         | None => ret tt
         end
     end ;;
     solve solver n
       (mk_solve_call "offdesign" None (Some init_file)
          (Some init_file)) ;;
     read_net n busses_0_P_val).
Proof.
  apply quiet_bind;
    [apply quiet_on_net, busses_0_set_attr_fuel|intros _].
  apply quiet_bind; [apply quiet_get_self|intros s'].
  apply quiet_bind.
  - destruct (get_cas n s').
    + apply quiet_bind; intros; apply quiet_cas_set_attr.
    + destruct (first_conn test (conns (get_net n s'))).
      * apply quiet_bind; [apply quiet_assign_cas|intros _].
        apply quiet_bind; intros; apply quiet_cas_set_attr.
      * apply quiet_ret.
  - intros _. apply quiet_bind; [apply quiet_solve|intros _].
    apply quiet_read_net, busses_0_P_val_fuel.
Qed.

(** A mass flow that is not above the ceiling makes [get_power]
    return without calling itself: one round of fuel is enough and
    one entry is recorded. *)
Lemma get_power_below_ceiling (massflow pressure : Q) (mode : string)
    (w : world) (m_max : Q) :
  method (self w) = "tespy" ->
  in_range (self w) pressure ->
  (mode = "charging" /\ m_max = massflow_charge_max (self w)
   \/ mode = "discharging" /\ m_max = massflow_discharge_max (self w)) ->
  massflow <= m_max + 1e-4 ->
  forall fuel,
    entered 1 w (get_power solver (S fuel) massflow pressure mode w).
Proof.
  intros Hm Hr Hmode Hle fuel. enter.
  rewrite (not_below _ _ Hr), (not_above _ _ Hr), Hm.
  cbn [String.eqb Ascii.eqb Bool.eqb].
  apply entered_call with (x := massflow) (pressure := pressure)
    (mode := mode).
  destruct Hmode as [[-> ->]|[-> ->]]; apply ltb_ge in Hle;
    cbn [String.eqb Ascii.eqb Bool.eqb]; rewrite Hle.
  - destruct (ltb massflow _).
    + leave. split; [discriminate|reflexivity].
    + apply (quiet_set_and_solve charge).
  - destruct (ltb massflow _).
    + leave. split; [discriminate|reflexivity].
    + apply (quiet_set_and_solve discharge).
Qed.

(** Under the invariants of the limits, a mass flow above the ceiling is
    not below the minimum. *)
Lemma above_ceiling_not_below_minimum (min_rel m_max massflow : Q) :
  min_rel <= 1 ->
  0 <= m_max ->
  m_max + 1e-4 < massflow ->
  min_rel * m_max - 1e-4 <= massflow.
Proof.
  intros Hrel Hmax Hhigh.
  assert (H : min_rel * m_max <= 1 * m_max)
    by (apply Qmult_le_compat_r; assumption).
  decimals. lra.
Qed.

(** Below the ceiling the fuel beyond the first round is not used. *)
Lemma get_power_below_ceiling_fuel (massflow pressure : Q)
    (mode : string) (w : world) (m_max : Q) (fuel : nat) :
  method (self w) = "tespy" ->
  in_range (self w) pressure ->
  (mode = "charging" /\ m_max = massflow_charge_max (self w)
   \/ mode = "discharging" /\ m_max = massflow_discharge_max (self w)) ->
  massflow <= m_max + 1e-4 ->
  get_power solver (S fuel) massflow pressure mode w
  = get_power solver 1 massflow pressure mode w.
Proof.
  intros Hm Hr Hmode Hle.
  remember (get_power solver 1 massflow pressure mode w) as rhs eqn:E.
  enter. subst rhs. symmetry. enter.
  rewrite (not_below _ _ Hr), (not_above _ _ Hr), Hm.
  cbn [String.eqb Ascii.eqb Bool.eqb].
  destruct Hmode as [[-> ->]|[-> ->]]; apply ltb_ge in Hle;
    cbn [String.eqb Ascii.eqb Bool.eqb]; rewrite Hle;
    reflexivity.
Qed.

(** C8.  With the method ["tespy"], the pressure within the limits
    and a mass flow that is not rejected as below the minimum, a mass
    flow above the ceiling ([m_max + 1e-4 < massflow]) makes
    [get_power] report it and call itself at [m_max].  That call
    is the same with a single round of fuel, so it does not call
    itself again; it ends, and the whole call has entered [get_power]
    exactly twice. *)
Theorem clamp_recurses_once (fuel : nat) (massflow pressure : Q)
    (mode : string) (w : world) (m_max : Q) :
  method (self w) = "tespy" ->
  in_range (self w) pressure ->
  (mode = "charging" /\ m_max = massflow_charge_max (self w)
   \/ mode = "discharging" /\ m_max = massflow_discharge_max (self w)) ->
  massflow_min_rel (self w) * m_max - 1e-4 <= massflow ->
  m_max + 1e-4 < massflow ->
  let w1 :=
    add_event (Print (MassflowAboveMaximum m_max massflow))
      (add_event (Call "get_power" massflow pressure mode) w) in
  get_power solver (S (S fuel)) massflow pressure mode w
  = get_power solver (S fuel) m_max pressure mode w1 /\
  get_power solver (S fuel) m_max pressure mode w1
  = get_power solver 1 m_max pressure mode w1 /\
  entered 1 w1 (get_power solver 1 m_max pressure mode w1) /\
  entered 2 w (get_power solver (S (S fuel)) massflow pressure mode w).
Proof.
  intros Hm Hr Hmode Hmin Hmax w1.
  assert (E : get_power solver (S (S fuel)) massflow pressure mode w
              = get_power solver (S fuel) m_max pressure mode w1).
  { remember (S fuel) as fuel1. enter.
    rewrite (not_below _ _ Hr), (not_above _ _ Hr), Hm.
    cbn [String.eqb Ascii.eqb Bool.eqb].
    apply ltb_lt in Hmax.
    destruct Hmode as [[-> ->]|[-> ->]]; apply ltb_ge in Hmin;
      cbn [String.eqb Ascii.eqb Bool.eqb]; rewrite Hmin, Hmax;
      reflexivity. }
  assert (H1 : forall fuel',
             entered 1 w1
               (get_power solver (S fuel') m_max pressure mode w1)).
  { apply get_power_below_ceiling with (m_max := m_max);
      [exact Hm|exact Hr|exact Hmode|decimals; lra]. }
  split; [exact E|]. split.
  { apply get_power_below_ceiling_fuel with (m_max := m_max);
      [exact Hm|exact Hr|exact Hmode|decimals; lra]. }
  split; [apply H1|].
  rewrite E. apply entered_call with (x := massflow)
    (pressure := pressure) (mode := mode).
  apply entered_print with (msg := MassflowAboveMaximum m_max massflow).
  apply H1.
Qed.

(** *** The design point *)

Ltac on_net_step :=
  unfold mbind at 1; unfold on_net at 1; project;
  match goal with
  | |- context [match ?f ?nw with
                | Ok _ => _ | Raise _ => _ | OutOfFuel => _
                end] =>
      destruct (f nw) as [?n| |] eqn:?; [|discriminate..]
  end.

Ltac solve_step :=
  unfold mbind at 1; unfold solve at 1; project;
  match goal with
  | |- context [sol_raise ?s] => destruct (sol_raise s); [discriminate|]
  end.

Ltac save_step := unfold mbind at 1; unfold save at 1; project.

Ltac read_step :=
  unfold mbind at 1; unfold read_net at 1; project;
  match goal with
  | |- context [imp_conns_m_val_SI ?id ?nw] =>
      destruct (imp_conns_m_val_SI id nw) eqn:?; [|discriminate..]
  end.

Lemma imp_busses_set_attr_comps (label : string) (P : option kwval)
    (nw nw' : network) :
  imp_busses_set_attr label P nw = Ok nw' -> comps nw' = comps nw.
Proof.
  unfold imp_busses_set_attr. destruct (lookup label (busses nw));
    [|discriminate].
  intros [= <-]. reflexivity.
Qed.

Lemma imp_conns_set_attr_comps (id : string) (p m : option kwval)
    (nw nw' : network) :
  imp_conns_set_attr id p m nw = Ok nw' -> comps nw' = comps nw.
Proof.
  unfold imp_conns_set_attr. destruct (lookup id (conns nw));
    [|discriminate].
  intros [= <-]. reflexivity.
Qed.

(** X15.  Whenever the layout calculation completes, the state saved as
    the discharge design is the one of the charging network, and the
    components of the discharging network, its pipe among them, are
    as they were before. *)
Lemma layout_saves_charge_network (w w' : world) :
  power_plant_layout solver w = (Ok tt, w') ->
  lookup (wdir (self w) ++ "discharge_design")%string (disk w')
  = Some (tespy_charge (self w')) /\
  comps (tespy_discharge (self w')) = comps (tespy_discharge (self w)).
Proof.
  unfold power_plant_layout. unfold mbind at 1. cbn [get_self].
  (* charging *)
  on_net_step. on_net_step. on_net_step. solve_step. save_step.
  read_step. unfold mbind at 1, logging_info at 1. cbn [emit]. project.
  (* discharging *)
  on_net_step. on_net_step. on_net_step. solve_step. save_step.
  read_step. unfold logging_info, emit.
  intros [= <-]. project. split.
  - cbn [lookup]. rewrite String.eqb_refl. reflexivity.
  - cbn [apply_solution comps].
    erewrite imp_conns_set_attr_comps by eassumption.
    erewrite imp_busses_set_attr_comps by eassumption.
    reflexivity.
Qed.

Lemma update_twice {A : Type} (key : string) (f : A -> A)
    (l : list (string * A)) :
  (forall a, f (f a) = f a) ->
  update key f (update key f l) = update key f l.
Proof.
  intros Hf. induction l as [|[k a] l IH]; [reflexivity|].
  cbn [update]. destruct (String.eqb k key) eqn:E; cbn [update]; rewrite E.
  - rewrite Hf. reflexivity.
  - rewrite IH. reflexivity.
Qed.

(** Setting the length of the pipe a second time, after a solve,
    changes nothing. *)
Lemma imp_comps_set_attr_again (label : string) (len : Q) (sol : solution)
    (nw nw1 nw2 : network) :
  imp_comps_set_attr label len nw = Ok nw1 ->
  imp_comps_set_attr label len (apply_solution sol nw1) = Ok nw2 ->
  nw2 = apply_solution sol nw1.
Proof.
  unfold imp_comps_set_attr.
  destruct (lookup label (comps nw)); [|discriminate].
  intros [= <-]. cbn [apply_solution comps busses conns res].
  destruct (lookup label _); [|discriminate].
  intros [= <-]. rewrite update_twice by reflexivity. reflexivity.
Qed.

(** X21.  Whenever the layout calculation completes, it has written
    two states and they are one and the same: the design of the
    charging mode and the design of the discharging mode both hold
    the charging network as the instance has it at the end, since the
    second setting of the pipe changes nothing and the second solve
    is the one of the other network. *)
Theorem layout_designs_coincide (w w' : world) :
  power_plant_layout solver w = (Ok tt, w') ->
  disk w'
  = ((wdir (self w) ++ "discharge_design")%string, tespy_charge (self w'))
      :: ((wdir (self w) ++ "charge_design")%string,
          tespy_charge (self w'))
      :: disk w.
Proof.
  unfold power_plant_layout. unfold mbind at 1. cbn [get_self].
  (* charging *)
  on_net_step. on_net_step. on_net_step. solve_step. save_step.
  read_step. unfold mbind at 1, logging_info at 1. cbn [emit]. project.
  (* discharging *)
  on_net_step. on_net_step. on_net_step. solve_step. save_step.
  read_step. unfold logging_info, emit.
  intros [= <-]. project.
  match goal with
  | H1 : imp_comps_set_attr _ _ _ = Ok ?nw1,
    H2 : imp_comps_set_attr _ _ (apply_solution _ ?nw1) = Ok _ |- _ =>
      rewrite (imp_comps_set_attr_again _ _ _ _ _ _ H1 H2)
  end.
  reflexivity.
Qed.

(** *** The mass flow limits on the simulation path *)

Local Open Scope m_scope.

(** X12.  On the simulation path in charging mode, once the solve has
    converged ([w3] is the world it leaves, [m] the mass flow read
    through [cas_charge]): a mass flow below the minimum is rejected
    with [(0, 0)], whatever its sign; a mass flow above the maximum
    is replaced by the maximum, and the power is the one [get_power]
    returns for the maximum, or [(0, 0)] is returned when that call
    raises. *)
Lemma mass_flow_limits_charging (fuel : nat) (power pressure : Q)
    (w w3 : world) (r m : Q) :
  let s := self w in
  let m_max := massflow_charge_max s in
  method s = "tespy" ->
  in_range s pressure ->
  Qabs (power_nominal_charge s / 100) <= Qabs power ->
  (on_net charge
     (imp_busses_set_attr (power_bus_charge s) (Some (Val power))) ;;
   on_net charge
     (imp_conns_set_attr (storage_connection_charge s)
        (Some (Val pressure)) (Some Nan)) ;;
   solve solver charge
     (mk_solve_call "offdesign"
        (Some (wdir s ++ "charge_design")%string) None None))
    (add_event (Call "get_mass_flow" power pressure "charging") w)
  = (Ok tt, w3) ->
  res_last (tespy_charge (self w3)) = Ok r ->
  r <= 1e-3 ->
  cas_m_val_SI charge w3 = (Ok m, w3) ->
  (m < massflow_min_rel s * m_max ->
   get_mass_flow solver (S fuel) power pressure "charging" w
   = (Ok (VTuple 0 0),
      add_event (Log "error" (MassFlowBelowMinimumFor power pressure))
        w3)) /\
  (massflow_min_rel s * m_max <= m ->
   m_max < m ->
   get_mass_flow solver (S fuel) power pressure "charging" w
   = match
       get_power solver fuel m_max pressure "charging"
         (add_event
            (Log "warning" (MassFlowAboveMaximumFor power pressure)) w3)
     with
     | (Ok p, w') => (Ok (VTuple m_max p), w')
     | (Raise _, w') =>
         (Ok (VTuple 0 0),
          add_event (Log "error" (CouldNotFindSolution power pressure))
            w')
     | (OutOfFuel, w') => (OutOfFuel, w')
     end).
Proof.
  intros s m_max Hm Hr Hp Hpre Hres Hconv Hcas. subst s m_max.
  apply ltb_ge in Hp, Hconv.
  assert (E : get_mass_flow solver (S fuel) power pressure "charging" w
              = try_except
                  (r <- read_net charge res_last ;;
                   if ltb 1e-3 r then
                     logging_error (CouldNotFindSolution power pressure) ;;
                     ret (VTuple 0 0)
                   else
                     m1 <- cas_m_val_SI charge ;;
                     if ltb m1
                          (massflow_min_rel (self w)
                           * massflow_charge_max (self w)) then
                       logging_error
                         (MassFlowBelowMinimumFor power pressure) ;;
                       ret (VTuple 0 0)
                     else
                       m2 <- cas_m_val_SI charge ;;
                       if ltb (massflow_charge_max (self w)) m2 then
                         logging_warning
                           (MassFlowAboveMaximumFor power pressure) ;;
                         p <- get_power solver fuel
                                (massflow_charge_max (self w))
                                pressure "charging" ;;
                         ret (VTuple (massflow_charge_max (self w)) p)
                       else
                         m <- read_net charge
                                (imp_conns_m_val_SI
                                   (storage_connection_charge (self w))) ;;
                         logging_info
                           (CalculationSuccessful power pressure m) ;;
                         ret (VTuple m power))
                  (logging_error (CouldNotFindSolution power pressure) ;;
                   ret (VTuple 0 0))
                  w3).
  { enter.
    rewrite (not_below _ _ Hr), (not_above _ _ Hr), Hm.
    cbn [String.eqb Ascii.eqb Bool.eqb]. rewrite Hp.
    revert Hpre. unfold mbind at 1 3.
    destruct (on_net charge _ _) as [[[]| |] w1]; [|discriminate..].
    unfold mbind at 1 2.
    destruct (on_net charge _ _) as [[[]| |] w2]; [|discriminate..].
    unfold try_except at 1. unfold mbind at 1.
    intros ->. reflexivity. }
  rewrite E. clear E.
  split; [intros Hlow|intros Hlow Hhigh];
    unfold try_except, mbind at 1, read_net at 1;
    cbn [get_net]; rewrite Hres, Hconv;
    unfold mbind at 1; rewrite Hcas.
  - apply ltb_lt in Hlow. rewrite Hlow. reflexivity.
  - apply ltb_ge in Hlow. apply ltb_lt in Hhigh.
    rewrite Hlow. unfold mbind at 1. rewrite Hcas, Hhigh.
    unfold mbind at 1, logging_warning at 1. cbn [emit].
    unfold mbind at 1.
    destruct (get_power solver fuel _ _ _ _) as [[p| |] w'];
      reflexivity.
Qed.

(** X13.  The same in discharging mode, with the mass flow read
    through [cas_discharge] and the limits of that mode; the messages
    are printed, not logged. *)
Lemma mass_flow_limits_discharging (fuel : nat) (power pressure : Q)
    (w w3 : world) (r m : Q) :
  let s := self w in
  let m_max := massflow_discharge_max s in
  method s = "tespy" ->
  in_range s pressure ->
  Qabs (power_nominal_discharge s / 100) <= Qabs power ->
  (on_net discharge
     (imp_busses_set_attr (power_bus_discharge s) (Some (Val power))) ;;
   on_net discharge
     (imp_conns_set_attr (storage_connection_discharge s)
        (Some (Val pressure)) (Some Nan)) ;;
   solve solver discharge
     (mk_solve_call "offdesign"
        (Some (wdir s ++ "discharge_design")%string) None None))
    (add_event (Call "get_mass_flow" power pressure "discharging") w)
  = (Ok tt, w3) ->
  res_last (tespy_discharge (self w3)) = Ok r ->
  r <= 1e-3 ->
  cas_m_val_SI discharge w3 = (Ok m, w3) ->
  (m < massflow_min_rel s * m_max ->
   get_mass_flow solver (S fuel) power pressure "discharging" w
   = (Ok (VTuple 0 0),
      add_event (Print (MassFlowBelowMinimumFor power pressure))
        w3)) /\
  (massflow_min_rel s * m_max <= m ->
   m_max < m ->
   get_mass_flow solver (S fuel) power pressure "discharging" w
   = match
       get_power solver fuel m_max pressure "discharging"
         (add_event
            (Print (MassFlowAboveMaximumFor power pressure)) w3)
     with
     | (Ok p, w') => (Ok (VTuple m_max p), w')
     | (Raise _, w') =>
         (Ok (VTuple 0 0),
          add_event (Print (CouldNotFindSolution power pressure))
            w')
     | (OutOfFuel, w') => (OutOfFuel, w')
     end).
Proof.
  intros s m_max Hm Hr Hp Hpre Hres Hconv Hcas. subst s m_max.
  apply ltb_ge in Hp, Hconv.
  assert (E : get_mass_flow solver (S fuel) power pressure "discharging" w
              = try_except
                  (r <- read_net discharge res_last ;;
                   if ltb 1e-3 r then
                     print (CouldNotFindSolution power pressure) ;;
                     ret (VTuple 0 0)
                   else
                     m1 <- cas_m_val_SI discharge ;;
                     if ltb m1
                          (massflow_min_rel (self w)
                           * massflow_discharge_max (self w)) then
                       print
                         (MassFlowBelowMinimumFor power pressure) ;;
                       ret (VTuple 0 0)
                     else
                       m2 <- cas_m_val_SI discharge ;;
                       if ltb (massflow_discharge_max (self w)) m2 then
                         print
                           (MassFlowAboveMaximumFor power pressure) ;;
                         p <- get_power solver fuel
                                (massflow_discharge_max (self w))
                                pressure "discharging" ;;
                         ret (VTuple (massflow_discharge_max (self w)) p)
                       else
                         m <- read_net discharge
                                (imp_conns_m_val_SI
                                   (storage_connection_discharge
                                      (self w))) ;;
                         ret (VTuple m power))
                  (print (CouldNotFindSolution power pressure) ;;
                   ret (VTuple 0 0))
                  w3).
  { enter.
    rewrite (not_below _ _ Hr), (not_above _ _ Hr), Hm.
    cbn [String.eqb Ascii.eqb Bool.eqb]. rewrite Hp.
    revert Hpre. unfold mbind at 1 3.
    destruct (on_net discharge _ _) as [[[]| |] w1]; [|discriminate..].
    unfold mbind at 1 2.
    destruct (on_net discharge _ _) as [[[]| |] w2]; [|discriminate..].
    unfold try_except at 1. unfold mbind at 1.
    intros ->. reflexivity. }
  rewrite E. clear E.
  split; [intros Hlow|intros Hlow Hhigh];
    unfold try_except, mbind at 1, read_net at 1;
    cbn [get_net]; rewrite Hres, Hconv;
    unfold mbind at 1; rewrite Hcas.
  - apply ltb_lt in Hlow. rewrite Hlow. reflexivity.
  - apply ltb_ge in Hlow. apply ltb_lt in Hhigh.
    rewrite Hlow. unfold mbind at 1. rewrite Hcas, Hhigh.
    unfold mbind at 1, print at 1. cbn [emit].
    unfold mbind at 1.
    destruct (get_power solver fuel _ _ _ _) as [[p| |] w'];
      reflexivity.
Qed.

(** *** The spline path *)

(** On the spline path [get_mass_flow] returns what the root finder
    returns, a single number: neither limit on the mass flow is
    applied to it. *)
Lemma spline_mass_flow_is_root (fuel : nat) (power pressure : Q)
    (mode : string) (w : world) :
  let s := self w in
  method s = "spline" ->
  in_range s pressure ->
  forall func target,
    (mode = "charging" /\ func = spline_charge s /\ target = power
     \/ mode = "discharging" /\ func = spline_discharge s
        /\ target = - power) ->
    fst (get_mass_flow solver (S fuel) power pressure mode w)
    = match
        Newton.newton reverse_2d reverse_2d_deriv
          (func, pressure, target) 0 Newton.no_kwargs
      with
      | Ok m => Ok (VNum m)
      | Raise e => Raise e
      | OutOfFuel => OutOfFuel
      end.
Proof.
  intros s Hm Hr func target Hmode. subst s. enter.
  rewrite (not_below _ _ Hr), (not_above _ _ Hr), Hm.
  cbn [String.eqb Ascii.eqb Bool.eqb].
  destruct Hmode as [(-> & -> & ->)|(-> & -> & ->)];
    cbn [String.eqb Ascii.eqb Bool.eqb];
    unfold mbind at 1; cbn [ret];
    unfold mbind at 1, lift at 1;
    destruct (Newton.newton _ _ _ _ _) as [m| |]; try reflexivity;
    unfold mbind at 1; destruct (Qeq_bool m 0); reflexivity.
Qed.

(** *** The reference [cas_charge] *)

(** C10.  With the method ["tespy"], the mode ["charging"], the
    pressure within the limits, a power of at least a hundredth of
    the nominal one and the bus and the connection of the
    configuration present in the network: as long as the instance
    has no attribute [cas_charge], [get_mass_flow] returns [(0, 0)]
    whatever the solver finds.  The solver is invoked once, the
    message is the one of a failed solve, and the attribute is still
    absent afterwards. *)
Theorem mass_flow_before_cas_charge (fuel : nat) (power pressure : Q)
    (w : world) :
  let s := self w in
  method s = "tespy" ->
  in_range s pressure ->
  Qabs (power_nominal_charge s / 100) <= Qabs power ->
  lookup (power_bus_charge s) (busses (tespy_charge s)) <> None ->
  lookup (storage_connection_charge s) (conns (tespy_charge s)) <> None ->
  cas_charge s = None ->
  let x := get_mass_flow solver (S fuel) power pressure "charging" w in
  fst x = Ok (VTuple 0 0) /\
  cas_charge (self (snd x)) = None /\
  out (snd x) =
    Log "error" (CouldNotFindSolution power pressure)
    :: Solve "tespy_charge"
         (mk_solve_call "offdesign"
            (Some (wdir s ++ "charge_design")%string) None None)
    :: Call "get_mass_flow" power pressure "charging" :: out w.
Proof.
  intros s Hm Hr Hp Hbus Hconn Hcas x. subst s x.
  pattern (get_mass_flow solver (S fuel) power pressure "charging" w).
  match goal with |- ?P _ => set (post := P) end.
  enter.
  rewrite (not_below _ _ Hr), (not_above _ _ Hr), Hm.
  apply ltb_ge in Hp.
  cbn [String.eqb Ascii.eqb Bool.eqb]. rewrite Hp.
  (* the targets are set *)
  unfold mbind at 1. unfold on_net at 1. project.
  unfold imp_busses_set_attr.
  destruct (lookup (power_bus_charge (self w)) _); [|congruence].
  unfold mbind at 1. unfold on_net at 1. project.
  unfold imp_conns_set_attr. project.
  destruct (lookup (storage_connection_charge (self w)) _);
    [|congruence].
  project.
  set (nw2 := mk_network _ _ _ _).
  (* the solve *)
  unfold try_except.
  unfold mbind at 1. unfold solve at 1. project.
  set (sol := solver _ _ _).
  set (nw3 := apply_solution sol nw2).
  destruct (sol_raise sol).
  { leave. subst post. cbn. repeat split; auto. }
  (* the residual *)
  unfold mbind at 1. unfold read_net at 1. project.
  destruct (res_last nw3) as [r| |] eqn:Er.
  2:{ leave. subst post. cbn. repeat split; auto. }
  2:{ unfold res_last in Er. destruct (rev (res nw3)); discriminate. }
  destruct (ltb 1e-3 r).
  { leave. subst post. cbn. repeat split; auto. }
  (* the read of the missing attribute *)
  unfold mbind at 1. unfold cas_m_val_SI at 1. project.
  rewrite Hcas.
  leave. subst post. cbn. repeat split; auto.
Qed.

(** *** Where [cas_charge] comes from *)

Lemma keeps_ret {A : Type} (a : A) : keeps_absent (ret a).
Proof. intros w H. exact H. Qed.

Lemma keeps_raise {A : Type} (e : exn) : keeps_absent (@raise A e).
Proof. intros w H. exact H. Qed.

Lemma keeps_emit (e : event) : keeps_absent (emit e).
Proof. intros w H. exact H. Qed.

Lemma keeps_get_self : keeps_absent get_self.
Proof. intros w H. exact H. Qed.

Lemma keeps_lift {A : Type} (r : result A) : keeps_absent (lift r).
Proof. intros w H. exact H. Qed.

Lemma keeps_out_of_fuel {A : Type} : keeps_absent (@out_of_fuel A).
Proof. intros w H. exact H. Qed.

Lemma keeps_bind {A B : Type} (c : M A) (k : A -> M B) :
  keeps_absent c -> (forall a, keeps_absent (k a)) ->
  keeps_absent (mbind c k).
Proof.
  intros Hc Hk w H. unfold mbind. specialize (Hc w H).
  destruct (c w) as [[a| |] w1]; cbn [snd] in *;
    [apply Hk|..]; assumption.
Qed.

Lemma keeps_try_except {A : Type} (body handler : M A) :
  keeps_absent body -> keeps_absent handler ->
  keeps_absent (try_except body handler).
Proof.
  intros Hb Hh w H. unfold try_except. specialize (Hb w H).
  destruct (body w) as [[a| |] w1]; cbn [snd] in *;
    [|apply Hh|]; assumption.
Qed.

Lemma keeps_on_net (n : net) (f : network -> result network) :
  keeps_absent (on_net n f).
Proof.
  intros w H. unfold on_net.
  destruct (f (get_net n (self w))); [|exact H..].
  destruct n; exact H.
Qed.

Lemma keeps_read_net {A : Type} (n : net) (f : network -> result A) :
  keeps_absent (read_net n f).
Proof. intros w H. exact H. Qed.

Lemma keeps_save (n : net) (path : string) : keeps_absent (save n path).
Proof. intros w H. exact H. Qed.

Lemma keeps_solve (n : net) (call : solve_call) :
  keeps_absent (solve solver n call).
Proof.
  intros w H. unfold solve. destruct (sol_raise _); destruct n; exact H.
Qed.

Lemma keeps_cas_m_val_SI (n : net) : keeps_absent (cas_m_val_SI n).
Proof.
  intros w H. unfold cas_m_val_SI. destruct (get_cas n (self w)); exact H.
Qed.

Lemma keeps_assign_cas_discharge (id : string) :
  keeps_absent (assign_cas discharge id).
Proof. intros w H. exact H. Qed.

(** While the attribute is absent, what follows its read is not run. *)
Lemma keeps_after_read {B : Type} (k : Q -> M B) :
  keeps_absent (mbind (cas_m_val_SI charge) k).
Proof.
  intros w H. unfold mbind, cas_m_val_SI. cbn [get_cas]. rewrite H.
  exact H.
Qed.

Ltac keeps_step :=
  first
    [ apply keeps_ret
    | apply keeps_raise
    | apply keeps_emit
    | apply keeps_get_self
    | apply keeps_lift
    | apply keeps_out_of_fuel
    | apply keeps_on_net
    | apply keeps_read_net
    | apply keeps_save
    | apply keeps_solve
    | apply keeps_assign_cas_discharge
    | apply keeps_after_read
    | apply keeps_cas_m_val_SI
    | apply keeps_try_except
    | apply keeps_bind; [|intros ?] ].

Ltac keeps_cases :=
  repeat match goal with
    | |- keeps_absent (if ?b then _ else _) => destruct b eqn:?
    | |- keeps_absent (match ?o with Some _ => _ | None => _ end) =>
        destruct o
    | |- keeps_absent (let '(_, _) := ?p in _) => destruct p
    end.

Ltac keeping := repeat (keeps_cases; keeps_step).

(** X14.  [get_mass_flow] in any mode, and [get_power] in any mode but
    ["charging"], leave the attribute [cas_charge] absent when it is. *)
Lemma cas_charge_kept_absent (fuel : nat) :
  (forall power pressure mode,
     keeps_absent (get_mass_flow solver fuel power pressure mode)) /\
  (forall massflow pressure mode,
     (mode =? "charging")%string = false ->
     keeps_absent (get_power solver fuel massflow pressure mode)).
Proof.
  induction fuel as [|fuel [IHm IHp]].
  - split; intros; apply keeps_out_of_fuel.
  - split.
    + intros power pressure mode. cbn [get_mass_flow].
      unfold cas_set_attr, logging_error, logging_warning, logging_info,
        print.
      keeping; apply IHp; assumption.
    + intros massflow pressure mode Hmode. cbn [get_power].
      rewrite Hmode.
      unfold cas_set_attr, logging_error, logging_warning, logging_info,
        print.
      keeping; solve [apply IHp; assumption|apply IHm].
Qed.

(** The layout calculation does not create it either. *)
Lemma layout_keeps_cas_charge_absent : keeps_absent (power_plant_layout solver).
Proof.
  unfold power_plant_layout, logging_info. keeping.
Qed.

(** In charging mode on the simulation path, with the pressure and the
    mass flow within the limits, [get_power] creates the attribute: it
    refers to the first connection whose target is labelled ["cas"]. *)
Lemma get_power_creates_cas_charge (fuel : nat) (massflow pressure : Q)
    (w : world) (id : string) :
  let s := self w in
  method s = "tespy" ->
  in_range s pressure ->
  massflow_min_rel s * massflow_charge_max s - 1e-4 <= massflow ->
  massflow <= massflow_charge_max s + 1e-4 ->
  busses (tespy_charge s) <> [] ->
  cas_charge s = None ->
  first_conn (fun c => (t_label c =? "cas")%string) (conns (tespy_charge s))
  = Some id ->
  cas_charge
    (self (snd (get_power solver (S fuel) massflow pressure "charging" w)))
  = Some id.
Proof.
  intros s Hm Hr Hlow Hhigh Hbus Hcas Hfirst. subst s. enter.
  rewrite (not_below _ _ Hr), (not_above _ _ Hr), Hm.
  cbn [String.eqb Ascii.eqb Bool.eqb].
  apply ltb_ge in Hlow, Hhigh. rewrite Hlow, Hhigh.
  unfold mbind at 1, on_net at 1. project.
  unfold busses_0_set_attr.
  destruct (busses (tespy_charge (self w))) as [|[label b] bs];
    [congruence|].
  unfold mbind at 1. cbn [get_self]. project.
  rewrite Hcas, Hfirst.
  unfold mbind, assign_cas, cas_set_attr, on_net, solve, read_net.
  project. destruct (sol_raise _); reflexivity.
Qed.

(** *** Termination *)

Lemma total_at {A : Type} (c : M A) (w : world) :
  total c -> fst (c w) <> OutOfFuel.
Proof. intros H. apply H. Qed.

Lemma total_ret {A : Type} (a : A) : total (ret a).
Proof. intros w. discriminate. Qed.

Lemma total_raise {A : Type} (e : exn) : total (@raise A e).
Proof. intros w. discriminate. Qed.

Lemma total_emit (e : event) : total (emit e).
Proof. intros w. discriminate. Qed.

Lemma total_get_self : total get_self.
Proof. intros w. discriminate. Qed.

Lemma total_bind {A B : Type} (c : M A) (k : A -> M B) :
  total c -> (forall a, total (k a)) -> total (mbind c k).
Proof.
  intros Hc Hk w. unfold mbind. specialize (Hc w).
  destruct (c w) as [[a| |] w1]; cbn [fst] in *;
    [apply Hk|discriminate|congruence].
Qed.

Lemma total_try_except {A : Type} (body handler : M A) :
  total body -> total handler -> total (try_except body handler).
Proof.
  intros Hb Hh w. unfold try_except. specialize (Hb w).
  destruct (body w) as [[a| |] w1]; cbn [fst] in *;
    [discriminate|apply Hh|congruence].
Qed.

Lemma total_lift {A : Type} (r : result A) :
  r <> OutOfFuel -> total (lift r).
Proof. intros H w. exact H. Qed.

Lemma total_quiet {A : Type} (c : M A) : quiet c -> total c.
Proof. intros H w. apply H. Qed.

Lemma total_cas_m_val_SI (n : net) : total (cas_m_val_SI n).
Proof.
  intros w. unfold cas_m_val_SI. destruct (get_cas n (self w));
    [|discriminate].
  cbn [fst]. unfold imp_conns_m_val_SI.
  destruct (lookup _ _); discriminate.
Qed.

Lemma imp_busses_set_attr_fuel (label : string) (P : option kwval)
    (nw : network) :
  imp_busses_set_attr label P nw <> OutOfFuel.
Proof.
  unfold imp_busses_set_attr. destruct (lookup _ _); discriminate.
Qed.

Lemma imp_conns_set_attr_fuel (id : string) (p m : option kwval)
    (nw : network) :
  imp_conns_set_attr id p m nw <> OutOfFuel.
Proof.
  unfold imp_conns_set_attr. destruct (lookup _ _); discriminate.
Qed.

Lemma imp_conns_m_val_SI_fuel (id : string) (nw : network) :
  imp_conns_m_val_SI id nw <> OutOfFuel.
Proof.
  unfold imp_conns_m_val_SI. destruct (lookup _ _); discriminate.
Qed.

Lemma res_last_fuel (nw : network) : res_last nw <> OutOfFuel.
Proof. unfold res_last. destruct (rev (res nw)); discriminate. Qed.

Lemma sub_fuel (x : pyval) (massflow : Q) : sub x massflow <> OutOfFuel.
Proof. destruct x; discriminate. Qed.

Lemma div_fuel (a b : Q) : div a b <> OutOfFuel.
Proof. unfold div. destruct (Qeq_bool b 0); discriminate. Qed.

(** The steps that call no method. *)
Ltac total_step :=
  first
    [ apply total_ret
    | apply total_raise
    | apply total_emit
    | apply total_get_self
    | apply total_cas_m_val_SI
    | apply total_quiet, quiet_on_net, imp_busses_set_attr_fuel
    | apply total_quiet, quiet_on_net, imp_conns_set_attr_fuel
    | apply total_quiet, quiet_read_net, imp_conns_m_val_SI_fuel
    | apply total_quiet, quiet_read_net, res_last_fuel
    | apply total_quiet, quiet_solve
    | apply total_quiet, quiet_set_and_solve
    | apply total_lift, sub_fuel
    | apply total_lift, div_fuel
    | apply total_lift, NewtonFacts.newton_total
    | apply total_try_except
    | apply total_bind; [|intros ?] ].

(** The tests at the head of a computation. *)
Ltac total_cases :=
  repeat match goal with
    | |- total (if ?b then _ else _) => destruct b
    | |- total (let '(_, _) := ?p in _) => destruct p
    end.

Ltac totality := repeat (total_cases; total_step).

(** On the spline path [get_mass_flow] calls no method: one round of
    fuel is enough. *)
Lemma get_mass_flow_spline_fuel (fuel : nat) (power pressure : Q)
    (mode : string) (w : world) :
  (method (self w) =? "tespy")%string = false ->
  fst (get_mass_flow solver (S fuel) power pressure mode w) <> OutOfFuel.
Proof.
  intros Hm. enter. rewrite Hm. apply total_at.
  unfold logging_error, print. totality.
Qed.

(** [get_power] needs no more than two rounds of fuel. *)
Lemma get_power_fuel (fuel : nat) (massflow pressure : Q) (mode : string) :
  total (get_power solver (S (S fuel)) massflow pressure mode).
Proof.
  intros w. remember (S fuel) as fuel1 eqn:Hfuel. enter.
  destruct (ltb (pressure + 1e-4) (p_min (self w))) eqn:E1;
    [apply total_at; unfold print; totality|].
  destruct (ltb (p_max (self w)) (pressure - 1e-4)) eqn:E2;
    [apply total_at; unfold print; totality|].
  assert (Hr : in_range (self w) pressure)
    by (split; apply ltb_ge; assumption).
  destruct (method (self w) =? "tespy")%string eqn:Em.
  - apply String.eqb_eq in Em.
    destruct (mode =? "charging")%string eqn:Ec;
      [|destruct (mode =? "discharging")%string eqn:Ed];
      [apply String.eqb_eq in Ec|apply String.eqb_eq in Ed|];
      [| |apply total_at; totality].
    + destruct (ltb massflow _);
        [apply total_at; unfold print; totality|].
      destruct (ltb _ massflow);
        [|apply total_at; apply total_quiet, (quiet_set_and_solve charge)].
      leave. subst fuel1.
      apply (get_power_below_ceiling (massflow_charge_max (self w)) pressure
               mode _ (massflow_charge_max (self w)));
        [exact Em|exact Hr|left; split; [exact Ec|reflexivity]
        |decimals; lra].
    + destruct (ltb massflow _);
        [apply total_at; unfold print; totality|].
      destruct (ltb _ massflow);
        [|apply total_at;
          apply total_quiet, (quiet_set_and_solve discharge)].
      leave. subst fuel1.
      apply (get_power_below_ceiling (massflow_discharge_max (self w))
               pressure mode _ (massflow_discharge_max (self w)));
        [exact Em|exact Hr|right; split; [exact Ed|reflexivity]
        |decimals; lra].
  - assert (Hg : forall power,
               fst (get_mass_flow solver fuel1 power pressure mode
                      (add_event (Call "get_power" massflow pressure mode) w))
               <> OutOfFuel).
    { intros power. subst fuel1. apply get_mass_flow_spline_fuel. exact Em. }
    destruct (method (self w) =? "spline")%string;
      [|apply total_at; totality].
    destruct (mode =? "charging")%string;
      [|destruct (mode =? "discharging")%string];
      [| |apply total_at; totality];
      unfold mbind at 1;
      match goal with
      | |- context [get_mass_flow solver fuel1 ?power pressure mode ?w1] =>
          specialize (Hg power);
          destruct (get_mass_flow solver fuel1 power pressure mode w1)
            as [[x| |] w2]
      end;
      cbn [fst] in *; try discriminate; try congruence;
      apply total_at; totality.
Qed.

(** X16.  The two methods call each other, and [get_power] itself, no
    more than three deep: [get_mass_flow] ends within three rounds,
    whatever the arguments, the instance and the solver. *)
Theorem get_mass_flow_fuel (fuel : nat) (power pressure : Q)
    (mode : string) :
  total (get_mass_flow solver (S (S (S fuel))) power pressure mode).
Proof.
  intros w. remember (S (S fuel)) as fuel2 eqn:Hfuel. enter.
  assert (Hp : forall massflow,
             total (get_power solver fuel2 massflow pressure mode))
    by (intros massflow; subst fuel2; apply get_power_fuel).
  apply total_at.
  unfold logging_error, logging_warning, logging_info, print.
  totality; apply Hp.
Qed.


(** X7.  On the simulation path in charging mode, once the solve has
    converged and the mass flow read through [cas_charge] is within
    the limits, [get_mass_flow] returns the mass flow of the storage
    connection of the configuration, which need not be the connection
    [cas_charge] refers to, together with the scheduled power as it was
    given. *)
Theorem mass_flow_as_scheduled (fuel : nat) (power pressure : Q)
    (w w3 : world) (r m m' : Q) :
  let s := self w in
  let m_max := massflow_charge_max s in
  method s = "tespy" ->
  in_range s pressure ->
  Qabs (power_nominal_charge s / 100) <= Qabs power ->
  (on_net charge
     (imp_busses_set_attr (power_bus_charge s) (Some (Val power))) ;;
   on_net charge
     (imp_conns_set_attr (storage_connection_charge s)
        (Some (Val pressure)) (Some Nan)) ;;
   solve solver charge
     (mk_solve_call "offdesign"
        (Some (wdir s ++ "charge_design")%string) None None))
    (add_event (Call "get_mass_flow" power pressure "charging") w)
  = (Ok tt, w3) ->
  res_last (tespy_charge (self w3)) = Ok r ->
  r <= 1e-3 ->
  cas_m_val_SI charge w3 = (Ok m, w3) ->
  imp_conns_m_val_SI (storage_connection_charge s) (tespy_charge (self w3))
  = Ok m' ->
  massflow_min_rel s * m_max <= m ->
  m <= m_max ->
  get_mass_flow solver (S fuel) power pressure "charging" w
  = (Ok (VTuple m' power),
     add_event (Log "info" (CalculationSuccessful power pressure m')) w3).
Proof.
  intros s m_max Hm Hr Hp Hpre Hres Hconv Hcas Hread Hlow Hhigh.
  subst s m_max.
  apply ltb_ge in Hp, Hconv.
  assert (E : get_mass_flow solver (S fuel) power pressure "charging" w
              = try_except
                  (r <- read_net charge res_last ;;
                   if ltb 1e-3 r then
                     logging_error (CouldNotFindSolution power pressure) ;;
                     ret (VTuple 0 0)
                   else
                     m1 <- cas_m_val_SI charge ;;
                     if ltb m1
                          (massflow_min_rel (self w)
                           * massflow_charge_max (self w)) then
                       logging_error
                         (MassFlowBelowMinimumFor power pressure) ;;
                       ret (VTuple 0 0)
                     else
                       m2 <- cas_m_val_SI charge ;;
                       if ltb (massflow_charge_max (self w)) m2 then
                         logging_warning
                           (MassFlowAboveMaximumFor power pressure) ;;
                         p <- get_power solver fuel
                                (massflow_charge_max (self w))
                                pressure "charging" ;;
                         ret (VTuple (massflow_charge_max (self w)) p)
                       else
                         m <- read_net charge
                                (imp_conns_m_val_SI
                                   (storage_connection_charge (self w))) ;;
                         logging_info
                           (CalculationSuccessful power pressure m) ;;
                         ret (VTuple m power))
                  (logging_error (CouldNotFindSolution power pressure) ;;
                   ret (VTuple 0 0))
                  w3).
  { enter.
    rewrite (not_below _ _ Hr), (not_above _ _ Hr), Hm.
    cbn [String.eqb Ascii.eqb Bool.eqb]. rewrite Hp.
    revert Hpre. unfold mbind at 1 3.
    destruct (on_net charge _ _) as [[[]| |] w1]; [|discriminate..].
    unfold mbind at 1 2.
    destruct (on_net charge _ _) as [[[]| |] w2]; [|discriminate..].
    unfold try_except at 1. unfold mbind at 1.
    intros ->. reflexivity. }
  rewrite E. clear E.
  unfold try_except, mbind at 1, read_net at 1.
  cbn [get_net]. rewrite Hres, Hconv.
  unfold mbind at 1. rewrite Hcas.
  apply ltb_ge in Hlow, Hhigh. rewrite Hlow.
  unfold mbind at 1. rewrite Hcas, Hhigh.
  unfold mbind at 1, read_net at 1. cbn [get_net]. rewrite Hread.
  reflexivity.
Qed.

(** *** The targets set by [get_power] *)

Lemma lookup_update {A : Type} (key : string) (f : A -> A)
    (l : list (string * A)) :
  lookup key (update key f l) = option_map f (lookup key l).
Proof.
  induction l as [|[k a] l IH]; [reflexivity|].
  cbn [update lookup]. destruct (String.eqb k key) eqn:E; cbn [lookup].
  - rewrite E. reflexivity.
  - rewrite E. exact IH.
Qed.

Lemma lookup_solved_conns (sol : solution) (id : string) (nw : network) :
  lookup id (conns (apply_solution sol nw))
  = option_map
      (fun c =>
         mk_connection (s_label c) (t_label c) (p_val c) (p_set c)
           (m_val c) (m_set c) (sol_m sol id))
      (lookup id (conns nw)).
Proof.
  cbn [apply_solution conns].
  induction (conns nw) as [|[k c] l IH]; [reflexivity|].
  cbn [map lookup]. destruct (String.eqb k id) eqn:E.
  - apply String.eqb_eq in E. subst k. reflexivity.
  - exact IH.
Qed.

Lemma first_conn_bound (test : connection -> bool)
    (l : list (string * connection)) (id : string) :
  first_conn test l = Some id -> bound id l.
Proof.
  unfold bound. induction l as [|[k c] l IH]; [discriminate|].
  cbn [first_conn lookup]. destruct (test c).
  - intros [= ->]. rewrite String.eqb_refl. discriminate.
  - intros H. destruct (String.eqb k id); [discriminate|]. apply IH, H.
Qed.

(** X8.  On the simulation path, with the pressure and the mass flow
    within the limits and a bus in the network of the mode, [get_power]
    leaves the network prepared as follows, whether the solve raises or
    not: the power of the first bus is free, and the connection the
    instance refers to as [cas_charge] or [cas_discharge] has the
    pressure and the mass flow of the call as targets.  The reference is
    the one the instance had, or else the first connection whose target
    (charging) or source (discharging) is labelled ["cas"]. *)
Theorem get_power_sets_targets (fuel : nat) (massflow pressure : Q)
    (mode : string) (w : world) (n : net) (m_max : Q)
    (test : connection -> bool) (id : string) :
  let s := self w in
  method s = "tespy" ->
  in_range s pressure ->
  (mode = "charging" /\ n = charge /\ m_max = massflow_charge_max s /\
   test = (fun c => (t_label c =? "cas")%string)
   \/
   mode = "discharging" /\ n = discharge /\
   m_max = massflow_discharge_max s /\
   test = (fun c => (s_label c =? "cas")%string)) ->
  massflow_min_rel s * m_max - 1e-4 <= massflow ->
  massflow <= m_max + 1e-4 ->
  busses (get_net n s) <> [] ->
  (get_cas n s = Some id /\ bound id (conns (get_net n s))
   \/
   get_cas n s = None /\ first_conn test (conns (get_net n s)) = Some id) ->
  let w' := snd (get_power solver (S fuel) massflow pressure mode w) in
  get_cas n (self w') = Some id /\
  (exists c,
     lookup id (conns (get_net n (self w'))) = Some c /\
     p_val c = pressure /\ p_set c = true /\
     m_val c = massflow /\ m_set c = true) /\
  (exists label b bs,
     busses (get_net n (self w')) = (label, b) :: bs /\ P_set b = false).
Proof.
  intros s Hm Hr Hmode Hlow Hhigh Hbus Hcas w'. subst s w'.
  assert (Hid : bound id (conns (get_net n (self w)))).
  { destruct Hcas as [[_ H]|[_ H]]; [exact H|].
    apply first_conn_bound with (1 := H). }
  unfold bound in Hid.
  destruct (lookup id (conns (get_net n (self w)))) as [c0|] eqn:Ec0;
    [clear Hid|congruence].
  apply ltb_ge in Hlow, Hhigh.
  destruct Hmode as [(-> & -> & -> & ->)|(-> & -> & -> & ->)];
    cbn [get_net get_cas] in *;
    match goal with
    | |- context [get_power solver (S fuel) massflow pressure ?mode w] =>
        pattern (get_power solver (S fuel) massflow pressure mode w)
    end;
    match goal with |- ?P _ => set (post := P) end;
    enter;
    rewrite (not_below _ _ Hr), (not_above _ _ Hr), Hm;
    cbn [String.eqb Ascii.eqb Bool.eqb]; rewrite Hlow, Hhigh;
    unfold mbind at 1, on_net at 1; project;
    unfold busses_0_set_attr;
    (destruct (busses _) as [|[label b] bs]; [congruence|]);
    unfold mbind at 1; cbn [get_self]; project;
    (destruct Hcas as [[-> _]|[-> ->]]);
    unfold mbind, assign_cas, cas_set_attr, on_net, ret, solve, read_net;
    project;
    (destruct (sol_raise _); subst post; cbn [fst snd]; project;
     (split; [reflexivity|]);
     (split;
      [rewrite lookup_solved_conns; project;
       rewrite !lookup_update, Ec0; cbn [option_map];
       eexists; split; [reflexivity|];
       repeat split; reflexivity
      |cbn [apply_solution busses map]; do 3 eexists;
       split; reflexivity])).
Qed.


(** *** The spline path, in full *)

(** On the spline path [get_mass_flow] changes nothing but the output,
    and its value is a number. *)
Lemma spline_mass_flow_untouched (fuel : nat) (power pressure : Q)
    (mode : string) (w : world) :
  method (self w) = "spline" ->
  in_range (self w) pressure ->
  let x := get_mass_flow solver (S fuel) power pressure mode w in
  self (snd x) = self w /\
  disk (snd x) = disk w /\
  forall v, fst x = Ok v -> exists m, v = VNum m.
Proof.
  intros Hm Hr x. subst x.
  pattern (get_mass_flow solver (S fuel) power pressure mode w).
  match goal with |- ?P _ => set (post := P) end.
  enter.
  rewrite (not_below _ _ Hr), (not_above _ _ Hr), Hm.
  cbn [String.eqb Ascii.eqb Bool.eqb].
  unfold mbind at 1.
  destruct (mode =? "charging")%string;
    [|destruct (mode =? "discharging")%string];
    cbn [ret raise];
    [| |subst post; cbn [fst snd]; repeat split; discriminate];
    unfold mbind at 1, lift at 1;
    (destruct (Newton.newton _ _ _ _ _) as [m| |];
     [|subst post; cbn [fst snd]; repeat split; discriminate..]);
    unfold mbind at 1;
    (destruct (Qeq_bool m 0); subst post; cbn [fst snd];
     repeat split; intros v [= <-]; eexists; reflexivity).
Qed.

(** The number it returns is [0], when the root finder has given up,
    or one clamped update away from a mass flow between 0 and 3000 at
    which the surface is within [1e-5] of the target. *)
Lemma spline_mass_flow_value (fuel : nat) (power pressure : Q)
    (mode : string) (w : world) (func : spline) (target : Q) :
  let s := self w in
  method s = "spline" ->
  in_range s pressure ->
  (mode = "charging" /\ func = spline_charge s /\ target = power
   \/ mode = "discharging" /\ func = spline_discharge s
      /\ target = - power) ->
  forall m,
    fst (get_mass_flow solver (S fuel) power pressure mode w) = Ok (VNum m) ->
    0 <= m <= 3000 /\
    (m = 0 \/
     exists x',
       0 <= x' <= 3000 /\
       Qabs (ev func x' pressure - target) < 1e-5 /\
       Newton.newton_update reverse_2d reverse_2d_deriv
         (func, pressure, target) 0 0 3000 x' = Ok m).
Proof.
  intros s Hm Hr Hmode m. subst s. enter.
  rewrite (not_below _ _ Hr), (not_above _ _ Hr), Hm.
  cbn [String.eqb Ascii.eqb Bool.eqb].
  assert (Hsel :
    (if (mode =? "charging")%string then ret (spline_charge (self w), power)
     else if (mode =? "discharging")%string then
       ret (spline_discharge (self w), - power)
     else raise (ValueError "Mode must be charging or discharging."))
    = ret (func, target)).
  { destruct Hmode as [(-> & -> & ->)|(-> & -> & ->)]; reflexivity. }
  rewrite Hsel. clear Hsel.
  unfold mbind at 1. cbn [ret].
  unfold mbind at 1, lift at 1, Newton.newton.
  destruct (Newton.newton_run reverse_2d reverse_2d_deriv
              (func, pressure, target) 0 Newton.no_kwargs)
    as [[m'| |] n] eqn:Hn; cbn [fst]; [|discriminate..].
  assert (Hbounds : 0 <= 3000) by (vm_compute; discriminate).
  assert (Hstart : 0 <= 200 <= 3000) by (split; vm_compute; discriminate).
  intros Hout.
  assert (Hmm : m' = m).
  { revert Hout. unfold mbind at 1.
    destruct (Qeq_bool m' 0); cbn [print emit ret fst]; congruence. }
  subst m'. clear Hout.
  unfold Newton.newton_run in Hn.
  apply (NewtonFacts.newton_loop_returns_within _ _ _ _ _ _ _ _ _ _ _ _ _
           Hbounds Hstart) in Hn.
  destruct Hn as [(Hr1 & _)|[(_ & ->)|(_ & x' & Hb & Hx' & Hup)]].
  - exfalso. revert Hr1. vm_compute. discriminate.
  - split; [split; vm_compute; discriminate|left; reflexivity].
  - split.
    + apply (NewtonFacts.newton_update_bounds _ _ _ _ _ _ _ _ Hup Hbounds).
    + right. exists x'. split; [exact Hb|]. split; [|exact Hup].
      assert (Heq : 0 - reverse_2d (func, pressure, target) x'
                    == ev func x' pressure - target)
        by (cbn [reverse_2d]; ring).
      rewrite <- Heq. exact Hx'.
Qed.

(** X9.  On the spline path, with the pressure within the limits,
    [get_mass_flow] touches neither the instance nor the saved states
    and never returns a pair.  The number it returns lies between 0
    and 3000, the default bounds of the root finder, whatever the
    mass flow limits of the configuration; when it is not [0], it is
    one clamped Newton update away from a mass flow, between these
    bounds too, at which the surface of the mode is within [1e-5] of
    the power asked for, the power being negated in discharging
    mode. *)
Theorem spline_mass_flow_bounds (fuel : nat) (power pressure : Q)
    (mode : string) (w : world) (func : spline) (target : Q) :
  let s := self w in
  method s = "spline" ->
  in_range s pressure ->
  (mode = "charging" /\ func = spline_charge s /\ target = power
   \/ mode = "discharging" /\ func = spline_discharge s
      /\ target = - power) ->
  let x := get_mass_flow solver (S fuel) power pressure mode w in
  self (snd x) = self w /\
  disk (snd x) = disk w /\
  (forall a b, fst x <> Ok (VTuple a b)) /\
  (forall m,
     fst x = Ok (VNum m) ->
     0 <= m <= 3000 /\
     (m = 0 \/
      exists x',
        0 <= x' <= 3000 /\
        Qabs (ev func x' pressure - target) < 1e-5 /\
        Newton.newton_update reverse_2d reverse_2d_deriv
          (func, pressure, target) 0 0 3000 x' = Ok m)).
Proof.
  intros s Hm Hr Hmode x. subst s x.
  destruct (spline_mass_flow_untouched fuel power pressure mode w Hm Hr)
    as (Hs & Hd & Hv).
  split; [exact Hs|]. split; [exact Hd|]. split.
  - intros a b H. destruct (Hv _ H) as [m Hm']. discriminate.
  - apply spline_mass_flow_value; assumption.
Qed.

(** X10.  On the spline path, with the pressure within the limits,
    [get_power] touches neither the instance nor the saved states, and
    what it returns is either the value of the surface of the mode at
    the mass flow and the pressure, or [0]; no limit on the mass flow
    is applied. *)
Theorem spline_power_value (fuel : nat) (massflow pressure : Q)
    (mode : string) (w : world) (func : spline) :
  let s := self w in
  method s = "spline" ->
  in_range s pressure ->
  (mode = "charging" /\ func = spline_charge s
   \/ mode = "discharging" /\ func = spline_discharge s) ->
  let x := get_power solver (S (S fuel)) massflow pressure mode w in
  self (snd x) = self w /\
  disk (snd x) = disk w /\
  forall q, fst x = Ok q -> q = ev func massflow pressure \/ q = 0.
Proof.
  intros s Hm Hr Hmode x. subst s x.
  remember (S fuel) as fuel1 eqn:Hfuel.
  pattern (get_power solver (S fuel1) massflow pressure mode w).
  match goal with |- ?P _ => set (post := P) end.
  enter.
  rewrite (not_below _ _ Hr), (not_above _ _ Hr), Hm.
  cbn [String.eqb Ascii.eqb Bool.eqb].
  assert (Hbody :
    forall val,
      post
        ((v <- get_mass_flow solver fuel1 val pressure mode ;;
          d <- lift (sub v massflow) ;;
          q <- lift (div d massflow) ;;
          if ltb (Qabs q) 1e-5 then ret (ev func massflow pressure)
          else ret 0)
           (add_event (Call "get_power" massflow pressure mode) w))).
  { intros val. unfold mbind at 1.
    destruct (spline_mass_flow_untouched fuel val pressure mode
                (add_event (Call "get_power" massflow pressure mode) w)
                Hm Hr) as (Hs & Hd & Hv).
    rewrite <- Hfuel in Hs, Hd, Hv.
    destruct (get_mass_flow solver fuel1 val pressure mode _)
      as [[v| |] w2]; cbn [fst snd] in *;
      [|subst post; cbn [fst snd]; repeat split;
        solve [assumption|discriminate]..].
    unfold mbind, lift, ret.
    destruct (sub v massflow) as [d| |];
      [|subst post; cbn [fst snd]; repeat split;
        solve [assumption|discriminate]..].
    destruct (div d massflow) as [q| |];
      [|subst post; cbn [fst snd]; repeat split;
        solve [assumption|discriminate]..].
    destruct (ltb (Qabs q) 1e-5); subst post; cbn [fst snd];
      (split; [exact Hs|]); (split; [exact Hd|]);
      intros q' [= <-]; auto. }
  destruct Hmode as [(-> & ->)|(-> & ->)];
    cbn [String.eqb Ascii.eqb Bool.eqb]; apply Hbody.
Qed.

(** A mass flow of [0] never passes the test of the relative
    deviation. *)
Lemma zero_deviates (massflow : Q) :
  ~ massflow == 0 -> 1e-5 <= Qabs ((0 - massflow) / massflow).
Proof.
  intros Hm.
  assert (E : (0 - massflow) / massflow == - (1)) by (field; exact Hm).
  rewrite E. vm_compute. discriminate.
Qed.

(** What [get_power] returns in discharging mode when the surface
    stays away from the negated value. *)
Lemma spline_discharge_power_zero (fuel : nat) (massflow pressure : Q)
    (w : world) (q : Q) :
  let s := self w in
  let func := spline_discharge s in
  method s = "spline" ->
  in_range s pressure ->
  (forall x,
     0 <= x <= 3000 ->
     1e-5 <= Qabs (ev func x pressure + ev func massflow pressure)) ->
  fst (get_power solver (S (S fuel)) massflow pressure "discharging" w)
  = Ok q ->
  q = 0.
Proof.
  intros s func Hm Hr Hsign. subst s func.
  remember (S fuel) as fuel1 eqn:Hfuel.
  enter.
  rewrite (not_below _ _ Hr), (not_above _ _ Hr), Hm.
  cbn [String.eqb Ascii.eqb Bool.eqb].
  unfold mbind at 1.
  pose proof (spline_mass_flow_untouched fuel
                (ev (spline_discharge (self w)) massflow pressure)
                pressure "discharging"
                (add_event (Call "get_power" massflow pressure "discharging")
                   w) Hm Hr) as (_ & _ & Hv).
  pose proof (spline_mass_flow_value fuel
                (ev (spline_discharge (self w)) massflow pressure)
                pressure "discharging"
                (add_event (Call "get_power" massflow pressure "discharging")
                   w)
                (spline_discharge (self w))
                (- ev (spline_discharge (self w)) massflow pressure)
                Hm Hr
                (or_intror (conj eq_refl (conj eq_refl eq_refl)))) as Hroot.
  rewrite <- Hfuel in Hv, Hroot.
  destruct (get_mass_flow solver fuel1 _ pressure "discharging" _)
    as [[v| |] w2]; cbn [fst] in *; [|discriminate..].
  destruct (Hv v eq_refl) as [m ->].
  destruct (Hroot m eq_refl) as (_ & [->|(x' & Hb & Hx' & _)]).
  - unfold mbind, lift, ret, sub, div.
    destruct (Qeq_bool massflow 0) eqn:E; cbn [fst]; [discriminate|].
    apply Qeq_bool_neq in E. apply zero_deviates, ltb_ge in E.
    rewrite E. cbn [fst]. congruence.
  - exfalso. specialize (Hsign x' Hb).
    assert (E : ev (spline_discharge (self w)) x' pressure
                - - ev (spline_discharge (self w)) massflow pressure
                == ev (spline_discharge (self w)) x' pressure
                   + ev (spline_discharge (self w)) massflow pressure)
      by ring.
    rewrite E in Hx'. lra.
Qed.

(** X22.  On the spline path in discharging mode [get_power] hands the
    value of the surface to [get_mass_flow], which negates what it is
    given before it looks for the mass flow.  So when the surface stays
    away, by [1e-5] or more, from the negated value at every mass flow
    between 0 and 3000, [get_power] cannot return that value: it
    returns [0], or it raises. *)
Theorem spline_discharge_power_negated (fuel : nat) (massflow pressure : Q)
    (w : world) :
  let s := self w in
  let func := spline_discharge s in
  method s = "spline" ->
  in_range s pressure ->
  (forall x,
     0 <= x <= 3000 ->
     1e-5 <= Qabs (ev func x pressure + ev func massflow pressure)) ->
  let x := get_power solver (S (S fuel)) massflow pressure "discharging" w in
  fst x = Ok 0 \/ exists e, fst x = Raise e.
Proof.
  intros s func Hm Hr Hsign x. subst s func x.
  pose proof (spline_discharge_power_zero fuel massflow pressure w) as Hq.
  pose proof (get_power_fuel fuel massflow pressure "discharging" w) as Hf.
  cbv zeta in Hq.
  destruct (fst (get_power solver (S (S fuel)) massflow pressure
                   "discharging" w)) as [q| |].
  - left. f_equal. apply Hq; auto.
  - right. eexists. reflexivity.
  - congruence.
Qed.

(** *** The references stay *)

Section Reference.

Variables (n : net) (id : string).

Lemma ref_ret {A : Type} (a : A) : keeps_reference n id (ret a).
Proof. intros w H. exact H. Qed.

Lemma ref_raise {A : Type} (e : exn) : keeps_reference n id (@raise A e).
Proof. intros w H. exact H. Qed.

Lemma ref_emit (e : event) : keeps_reference n id (emit e).
Proof. intros w H. exact H. Qed.

Lemma ref_lift {A : Type} (r : result A) : keeps_reference n id (lift r).
Proof. intros w H. exact H. Qed.

Lemma ref_out_of_fuel {A : Type} : keeps_reference n id (@out_of_fuel A).
Proof. intros w H. exact H. Qed.

Lemma ref_bind {A B : Type} (c : M A) (k : A -> M B) :
  keeps_reference n id c -> (forall a, keeps_reference n id (k a)) ->
  keeps_reference n id (mbind c k).
Proof.
  intros Hc Hk w H. unfold mbind. specialize (Hc w H).
  destruct (c w) as [[a| |] w1]; cbn [snd] in *;
    [apply Hk|..]; assumption.
Qed.

(** What follows a read of the instance may rely on the reference. *)
Lemma ref_bind_self {B : Type} (k : model -> M B) :
  (forall s, get_cas n s = Some id -> keeps_reference n id (k s)) ->
  keeps_reference n id (mbind get_self k).
Proof.
  intros Hk w H. unfold mbind, get_self. apply Hk; exact H.
Qed.

Lemma ref_try_except {A : Type} (body handler : M A) :
  keeps_reference n id body -> keeps_reference n id handler ->
  keeps_reference n id (try_except body handler).
Proof.
  intros Hb Hh w H. unfold try_except. specialize (Hb w H).
  destruct (body w) as [[a| |] w1]; cbn [snd] in *;
    [|apply Hh|]; assumption.
Qed.

Lemma ref_on_net (n' : net) (f : network -> result network) :
  keeps_reference n id (on_net n' f).
Proof.
  intros w H. unfold on_net.
  destruct (f (get_net n' (self w))); [|exact H..].
  destruct n, n'; exact H.
Qed.

Lemma ref_read_net {A : Type} (n' : net) (f : network -> result A) :
  keeps_reference n id (read_net n' f).
Proof. intros w H. exact H. Qed.

Lemma ref_save (n' : net) (path : string) :
  keeps_reference n id (save n' path).
Proof. intros w H. exact H. Qed.

Lemma ref_solve (n' : net) (call : solve_call) :
  keeps_reference n id (solve solver n' call).
Proof.
  intros w H. unfold solve. destruct (sol_raise _); destruct n, n'; exact H.
Qed.

Lemma ref_cas_m_val_SI (n' : net) : keeps_reference n id (cas_m_val_SI n').
Proof.
  intros w H. unfold cas_m_val_SI. destruct (get_cas n' (self w)); exact H.
Qed.

(** An assignment to the other reference. *)
Lemma ref_assign_other (n' : net) (id' : string) :
  n' <> n -> keeps_reference n id (assign_cas n' id').
Proof.
  intros Hn w H. unfold assign_cas. destruct n, n'; try congruence; exact H.
Qed.

End Reference.

Ltac ref_step :=
  first
    [ apply ref_ret
    | apply ref_raise
    | apply ref_emit
    | apply ref_lift
    | apply ref_out_of_fuel
    | apply ref_on_net
    | apply ref_read_net
    | apply ref_save
    | apply ref_solve
    | apply ref_cas_m_val_SI
    | apply ref_assign_other; discriminate
    | apply ref_try_except
    | apply ref_bind_self; intros ? ?
    | apply ref_bind; [|intros ?] ].

Ltac ref_cases :=
  repeat match goal with
    | |- keeps_reference _ _ (if ?b then _ else _) => destruct b
    | H : get_cas _ ?s = Some _
      |- keeps_reference _ _ (match ?f ?s with Some _ => _ | None => _ end) =>
        cbn [get_cas] in H; destruct (f s) eqn:?; try congruence
    | |- keeps_reference _ _ (match ?o with Some _ => _ | None => _ end) =>
        destruct o
    | |- keeps_reference _ _ (let '(_, _) := ?p in _) => destruct p
    end.

Ltac referring := repeat (ref_cases; ref_step).

Lemma cas_reference_kept_fuel (n : net) (id : string) (fuel : nat) :
  (forall power pressure mode,
     keeps_reference n id (get_mass_flow solver fuel power pressure mode)) /\
  (forall massflow pressure mode,
     keeps_reference n id (get_power solver fuel massflow pressure mode)).
Proof.
  induction fuel as [|fuel [IHm IHp]].
  - split; intros; apply ref_out_of_fuel.
  - split.
    + intros power pressure mode. cbn [get_mass_flow].
      unfold cas_set_attr, logging_error, logging_warning, logging_info,
        print.
      destruct n; referring; apply IHp.
    + intros massflow pressure mode. cbn [get_power].
      unfold cas_set_attr, logging_error, logging_warning, logging_info,
        print.
      destruct n; referring; solve [apply IHp|apply IHm].
Qed.

(** X11.  Once the instance refers to a connection as [cas_charge] or
    as [cas_discharge], no call of [get_mass_flow], of [get_power] or
    of the layout calculation makes it refer to another: [get_power]
    looks for the connection labelled ["cas"] only while the attribute
    is absent. *)
Theorem cas_reference_kept (n : net) (id : string) (fuel : nat)
    (x pressure : Q) (mode : string) (w : world) :
  get_cas n (self w) = Some id ->
  get_cas n (self (snd (get_mass_flow solver fuel x pressure mode w)))
  = Some id /\
  get_cas n (self (snd (get_power solver fuel x pressure mode w)))
  = Some id /\
  get_cas n (self (snd (power_plant_layout solver w))) = Some id.
Proof.
  intros H. split; [|split].
  - apply (proj1 (cas_reference_kept_fuel n id fuel)), H.
  - apply (proj2 (cas_reference_kept_fuel n id fuel)), H.
  - revert w H. change (keeps_reference n id (power_plant_layout solver)).
    unfold power_plant_layout, logging_info. referring.
Qed.

(** *** The mass flow limits of [get_power] *)

(** X4.  On the simulation path, with the pressure within the limits,
    a mass flow below [massflow_min_rel * m_max - 1e-4] makes
    [get_power] print the violation and return [0]: the solver is not
    invoked and the networks are as they were.  The test comes before
    the one of the ceiling. *)
Theorem get_power_below_minimum (fuel : nat) (massflow pressure : Q)
    (mode : string) (w : world) (m_max : Q) :
  method (self w) = "tespy" ->
  in_range (self w) pressure ->
  (mode = "charging" /\ m_max = massflow_charge_max (self w)
   \/ mode = "discharging" /\ m_max = massflow_discharge_max (self w)) ->
  massflow < massflow_min_rel (self w) * m_max - 1e-4 ->
  get_power solver (S fuel) massflow pressure mode w
  = (Ok 0,
     add_event
       (Print
          (MassflowBelowMinimum (massflow_min_rel (self w) * m_max)
             massflow))
       (add_event (Call "get_power" massflow pressure mode) w)).
Proof.
  intros Hm Hr Hmode Hlow. enter.
  rewrite (not_below _ _ Hr), (not_above _ _ Hr), Hm.
  cbn [String.eqb Ascii.eqb Bool.eqb].
  destruct Hmode as [[-> ->]|[-> ->]]; apply ltb_lt in Hlow;
    cbn [String.eqb Ascii.eqb Bool.eqb]; rewrite Hlow; reflexivity.
Qed.

(** *** Exceptions on the simulation path *)

Lemma pair_ret (a b : Q) : pair_or_raise (ret (VTuple a b)).
Proof. intros w. exact I. Qed.

Lemma pair_raise (e : exn) : pair_or_raise (raise e).
Proof. intros w. exact I. Qed.

Lemma pair_bind {A : Type} (c : M A) (k : A -> M pyval) :
  total c -> (forall a, pair_or_raise (k a)) -> pair_or_raise (mbind c k).
Proof.
  intros Hc Hk w. unfold mbind. specialize (Hc w).
  destruct (c w) as [[a| |] w1]; cbn [fst] in *;
    [apply Hk|exact I|congruence].
Qed.

(** A [try] whose body ends in a pair or an exception, with a handler
    that returns a pair, returns a pair. *)
Lemma try_except_returns_pair (body handler : M pyval) (w : world) :
  pair_or_raise body ->
  (forall w', exists a b, fst (handler w') = Ok (VTuple a b)) ->
  exists a b, fst (try_except body handler w) = Ok (VTuple a b).
Proof.
  intros Hb Hh. unfold try_except. specialize (Hb w).
  destruct (body w) as [[[q|a b]| |] w1]; cbn [fst] in *;
    [contradiction|eauto|apply Hh|contradiction].
Qed.

Ltac pair_step :=
  first
    [ apply pair_ret
    | apply pair_raise
    | apply pair_bind; [totality|intros ?] ].

Ltac pair_cases :=
  repeat match goal with
    | |- pair_or_raise (if ?b then _ else _) => destruct b
    end.

Ltac pairing := repeat (pair_cases; pair_step).

(** X5.  On the simulation path, in either mode, once the bus and the
    connection of the configuration are in the network of the mode,
    [get_mass_flow] never raises and never returns a single number: it
    returns a pair, whatever the solver does, exceptions of the solver
    and of the nested [get_power] included. *)
Theorem get_mass_flow_returns_pair (fuel : nat) (power pressure : Q)
    (mode : string) (w : world) :
  let s := self w in
  method s = "tespy" ->
  (mode = "charging" /\
   bound (power_bus_charge s) (busses (tespy_charge s)) /\
   bound (storage_connection_charge s) (conns (tespy_charge s))
   \/
   mode = "discharging" /\
   bound (power_bus_discharge s) (busses (tespy_discharge s)) /\
   bound (storage_connection_discharge s) (conns (tespy_discharge s))) ->
  exists a b,
    fst (get_mass_flow solver (S (S (S fuel))) power pressure mode w)
    = Ok (VTuple a b).
Proof.
  intros s Hm Hmode. subst s.
  remember (S (S fuel)) as fuel2 eqn:Hfuel.
  assert (Hp : forall massflow mode,
             total (get_power solver fuel2 massflow pressure mode))
    by (intros; subst fuel2; apply get_power_fuel).
  enter.
  destruct (ltb (pressure + 1e-4) (p_min (self w))); [leave; cbn [fst]; eauto|].
  destruct (ltb (p_max (self w)) (pressure - 1e-4)); [leave; cbn [fst]; eauto|].
  rewrite Hm. cbn [String.eqb Ascii.eqb Bool.eqb].
  destruct Hmode as [(-> & Hbus & Hconn)|(-> & Hbus & Hconn)];
    cbn [String.eqb Ascii.eqb Bool.eqb];
    (destruct (ltb (Qabs power) _); [leave; cbn [fst]; eauto|]);
    unfold bound in Hbus, Hconn;
    unfold mbind at 1; unfold on_net at 1; project;
    unfold imp_busses_set_attr;
    (destruct (lookup _ (busses _)); [|congruence]);
    unfold mbind at 1; unfold on_net at 1; project;
    unfold imp_conns_set_attr; project;
    (destruct (lookup _ (conns _)); [|congruence]);
    (apply try_except_returns_pair;
     [|intros w'; leave; cbn [fst]; eauto]);
    unfold logging_error, logging_warning, logging_info, print;
    pairing; apply Hp.
Qed.

(** X23.  On the simulation path, in either mode, once the targets are
    set: when the solve raises, whatever the exception, or ends with a
    last residual above [1e-3] or with no residual at all,
    [get_mass_flow] reports that no solution was found, by the log
    when charging and on the standard output when discharging, and
    returns [(0, 0)]; the network stays as the solve has left it. *)
Theorem mass_flow_unsolved (fuel : nat) (power pressure : Q)
    (mode : string) (w w2 w3 : world) (n : net) (bus conn : string)
    (nominal : Q) (design : string) (report : message -> event)
    (x : result unit) :
  let s := self w in
  method s = "tespy" ->
  in_range s pressure ->
  (mode = "charging" /\ n = charge /\ bus = power_bus_charge s /\
   conn = storage_connection_charge s /\
   nominal = power_nominal_charge s /\
   design = (wdir s ++ "charge_design")%string /\ report = Log "error"
   \/
   mode = "discharging" /\ n = discharge /\ bus = power_bus_discharge s /\
   conn = storage_connection_discharge s /\
   nominal = power_nominal_discharge s /\
   design = (wdir s ++ "discharge_design")%string /\ report = Print) ->
  Qabs (nominal / 100) <= Qabs power ->
  (on_net n (imp_busses_set_attr bus (Some (Val power))) ;;
   on_net n (imp_conns_set_attr conn (Some (Val pressure)) (Some Nan)))
    (add_event (Call "get_mass_flow" power pressure mode) w)
  = (Ok tt, w2) ->
  solve solver n (mk_solve_call "offdesign" (Some design) None None) w2
  = (x, w3) ->
  ((exists e, x = Raise e)
   \/ x = Ok tt /\
      forall r, res_last (get_net n (self w3)) = Ok r -> 1e-3 < r) ->
  get_mass_flow solver (S fuel) power pressure mode w
  = (Ok (VTuple 0 0),
     add_event (report (CouldNotFindSolution power pressure)) w3).
Proof.
  intros s Hm Hr Hmode Hp Hpre Hsolve Hx. subst s.
  apply ltb_ge in Hp. enter.
  rewrite (not_below _ _ Hr), (not_above _ _ Hr), Hm.
  cbn [String.eqb Ascii.eqb Bool.eqb].
  destruct Hmode as [(-> & -> & -> & -> & -> & -> & ->)
                    |(-> & -> & -> & -> & -> & -> & ->)];
    cbn [String.eqb Ascii.eqb Bool.eqb]; rewrite Hp;
    revert Hpre; unfold mbind at 1 2;
    (destruct (on_net _ _ _) as [[[]| |] w1]; [|discriminate..]);
    unfold mbind at 1;
    (destruct (on_net _ _ _) as [[[]| |] w2']; [|discriminate..]);
    intros [= ->];
    unfold try_except at 1; unfold mbind at 1; rewrite Hsolve;
    (destruct Hx as [[e ->]|[-> Hres]]; [reflexivity|]);
    unfold mbind at 1, read_net at 1; cbn [get_net] in *;
    (destruct (res_last _) as [r| |] eqn:Er;
     [|reflexivity
      |exfalso; revert Er; unfold res_last; destruct (rev _);
       discriminate]);
    specialize (Hres r eq_refl); apply ltb_lt in Hres; rewrite Hres;
    reflexivity.
Qed.

(** X24.  The targets are set before the [try]: on the simulation
    path, with a power that is not small, a bus or a storage
    connection of the configuration that the network of the mode does
    not have makes [get_mass_flow] raise the [KeyError] of that name,
    and the solver is not invoked. *)
Theorem mass_flow_key_error (fuel : nat) (power pressure : Q)
    (mode : string) (w : world) (n : net) (bus conn : string)
    (nominal : Q) :
  let s := self w in
  method s = "tespy" ->
  in_range s pressure ->
  (mode = "charging" /\ n = charge /\ bus = power_bus_charge s /\
   conn = storage_connection_charge s /\
   nominal = power_nominal_charge s
   \/
   mode = "discharging" /\ n = discharge /\ bus = power_bus_discharge s /\
   conn = storage_connection_discharge s /\
   nominal = power_nominal_discharge s) ->
  Qabs (nominal / 100) <= Qabs power ->
  let x := get_mass_flow solver (S fuel) power pressure mode w in
  (lookup bus (busses (get_net n s)) = None ->
   x = (Raise (KeyError bus),
        add_event (Call "get_mass_flow" power pressure mode) w)) /\
  (bound bus (busses (get_net n s)) ->
   lookup conn (conns (get_net n s)) = None ->
   fst x = Raise (KeyError conn) /\
   out (snd x) = Call "get_mass_flow" power pressure mode :: out w).
Proof.
  intros s Hm Hr Hmode Hp x. subst s x.
  apply ltb_ge in Hp.
  destruct Hmode as [(-> & -> & -> & -> & ->)|(-> & -> & -> & -> & ->)];
    cbn [get_net]; (split; [intros Hbus|intros Hbus Hconn]);
    match goal with
    | |- context [get_mass_flow solver (S fuel) power pressure ?mode w] =>
        pattern (get_mass_flow solver (S fuel) power pressure mode w)
    end;
    match goal with |- ?P _ => set (post := P) end;
    enter;
    rewrite (not_below _ _ Hr), (not_above _ _ Hr), Hm;
    cbn [String.eqb Ascii.eqb Bool.eqb]; rewrite Hp;
    unfold mbind at 1, on_net at 1; project;
    unfold imp_busses_set_attr.
  1, 3: rewrite Hbus; subst post; reflexivity.
  all: unfold bound in Hbus;
    (destruct (lookup _ (busses _)); [|congruence]);
    unfold mbind at 1, on_net at 1; project;
    unfold imp_conns_set_attr; project; rewrite Hconn;
    subst post; cbn [fst snd]; split; reflexivity.
Qed.

(** X6.  [get_power] has no handler: on the simulation path, with the
    pressure and the mass flow within the limits and a bus in the
    network, an exception of the solver leaves [get_power] as it is
    raised. *)
Theorem get_power_propagates (fuel : nat) (massflow pressure : Q)
    (mode : string) (w : world) (n : net) (m_max : Q) (path : string)
    (e : exn) :
  let s := self w in
  method s = "tespy" ->
  in_range s pressure ->
  (mode = "charging" /\ n = charge /\ m_max = massflow_charge_max s /\
   path = tespy_charge_path s
   \/
   mode = "discharging" /\ n = discharge /\
   m_max = massflow_discharge_max s /\ path = tespy_discharge_path s) ->
  massflow_min_rel s * m_max - 1e-4 <= massflow ->
  massflow <= m_max + 1e-4 ->
  busses (get_net n s) <> [] ->
  (forall nw,
     sol_raise
       (solver
          (mk_solve_call "offdesign" None
             (Some (path ++ "/results.csv")%string)
             (Some (path ++ "/results.csv")%string))
          (disk w) nw)
     = Some e) ->
  fst (get_power solver (S fuel) massflow pressure mode w) = Raise e.
Proof.
  intros s Hm Hr Hmode Hlow Hhigh Hbus Hsol. subst s. enter.
  rewrite (not_below _ _ Hr), (not_above _ _ Hr), Hm.
  cbn [String.eqb Ascii.eqb Bool.eqb].
  apply ltb_ge in Hlow, Hhigh.
  destruct Hmode as [(-> & -> & -> & ->)|(-> & -> & -> & ->)];
    cbn [String.eqb Ascii.eqb Bool.eqb]; rewrite Hlow, Hhigh;
    unfold mbind at 1, on_net at 1; project;
    unfold busses_0_set_attr; cbn [get_net] in Hbus;
    (destruct (busses _) as [|[label b] bs]; [congruence|]);
    unfold mbind at 1; cbn [get_self]; project;
    (match goal with
     | |- context [match ?o with Some _ => _ | None => _ end] =>
         destruct o
     end;
     [|match goal with
       | |- context [first_conn ?t ?l] => destruct (first_conn t l)
       end]);
    unfold mbind, assign_cas, cas_set_attr, on_net, ret, solve; project;
    rewrite Hsol; reflexivity.
Qed.

End Methods.

(** *** Evaluations *)

(** C3 at the example configuration, with a solver that converges to
    a mass flow of 10 for the charging network and of 5 for the
    discharging one.  The layout calculation completes; the state it
    has saved as the discharge design is the state of the charging
    network (mass flow 10), not the converged state of the discharging
    network (mass flow 5), and the pipe of the discharging network has
    not been given the well depth of 700. *)
Theorem layout_discharge_design_is_charge_state :
  let x := power_plant_layout a_solver (a_world "tespy") in
  fst x = Ok tt /\
  lookup "plant/discharge_design" (disk (snd x))
  = Some (tespy_charge (self (snd x))) /\
  lookup "plant/discharge_design" (disk (snd x))
  <> Some (tespy_discharge (self (snd x))) /\
  imp_conns_m_val_SI "storage" (tespy_charge (self (snd x))) = Ok 10 /\
  imp_conns_m_val_SI "storage" (tespy_discharge (self (snd x))) = Ok 5 /\
  lookup "pipe" (comps (tespy_charge (self (snd x))))
  = Some (mk_component 700) /\
  lookup "pipe" (comps (tespy_discharge (self (snd x))))
  = Some (mk_component 0).
Proof.
  vm_compute. repeat split; try reflexivity. discriminate.
Qed.

(** C1 at the spline path.  In the example configuration (maximum mass
    flow 10) with the spline method, a power of -4000 at pressure 100
    resolves to a mass flow of 20; [get_mass_flow] returns that number
    alone, above the maximum, instead of the pair of the maximum and
    of the power at the maximum. *)
Theorem spline_mass_flow_not_clamped :
  exists m : Q,
    fst (get_mass_flow a_solver 3 (- 4000) 100 "charging"
           (a_world "spline"))
    = Ok (VNum m) /\
    m == 20 /\
    massflow_charge_max (a_model "spline") < m.
Proof.
  eexists. split; [vm_compute; reflexivity|].
  split; vm_compute; reflexivity.
Qed.

(** C5 at the spline path.  In the same configuration (minimum mass
    flow a tenth of 10) a power of -100 resolves to a mass flow of 0.5;
    [get_mass_flow] returns that number, below the minimum in
    magnitude, instead of [(0, 0)]. *)
Theorem spline_mass_flow_not_rejected :
  exists m : Q,
    fst (get_mass_flow a_solver 3 (- 100) 100 "charging"
           (a_world "spline"))
    = Ok (VNum m) /\
    m == 0.5 /\
    Qabs m
    < massflow_min_rel (a_model "spline")
      * massflow_charge_max (a_model "spline").
Proof.
  eexists. split; [vm_compute; reflexivity|].
  split; vm_compute; reflexivity.
Qed.

(** *** The properties at the example configuration *)

(** Pressures 10 and 200 against the limits [[50, 150]], with a mode
    string that is no mode. *)
Lemma pressure_out_of_range_witness :
  (fst (get_mass_flow a_solver 1 (- 500) 10 "idle" (a_world "tespy"))
   = Ok (VTuple 0 0) /\
   fst (get_power a_solver 1 5 10 "idle" (a_world "tespy")) = Ok 0) /\
  (fst (get_mass_flow a_solver 1 (- 500) 200 "idle" (a_world "tespy"))
   = Ok (VTuple 0 0) /\
   fst (get_power a_solver 1 5 200 "idle" (a_world "tespy")) = Ok 0).
Proof.
  split.
  - assert (H : 10 < p_min (self (a_world "tespy")) - 1e-4)
      by (vm_compute; reflexivity).
    destruct (proj1 (pressure_out_of_range a_solver 0 (- 500) 5 10 "idle"
                       (a_world "tespy")) H) as [H1 H2].
    rewrite H1, H2. split; reflexivity.
  - assert (H : 200 > p_max (self (a_world "tespy")) + 1e-4)
      by (vm_compute; reflexivity).
    assert (Hinv : p_min (self (a_world "tespy"))
                   <= p_max (self (a_world "tespy")))
      by (vm_compute; discriminate).
    destruct (proj2 (pressure_out_of_range a_solver 0 (- 500) 5 200 "idle"
                       (a_world "tespy")) Hinv H) as [H1 H2].
    rewrite H1, H2. split; reflexivity.
Defined.

(** C6, as stated, fails: with the pressure 10 below the limits the
    mode string ["idle"] raises nothing; [get_mass_flow] returns
    [(0, 0)] and [get_power] returns [0]. *)
Lemma invalid_mode_counterexample :
  "idle" <> "charging" /\
  "idle" <> "discharging" /\
  fst (get_mass_flow a_solver 3 (- 500) 10 "idle" (a_world "tespy"))
  = Ok (VTuple 0 0) /\
  fst (get_power a_solver 3 5 10 "idle" (a_world "tespy")) = Ok 0.
Proof.
  split; [discriminate|]. split; [discriminate|].
  split; vm_compute; reflexivity.
Qed.

(** The mode string ["idle"] at pressure 100. *)
Lemma invalid_mode_raises_witness :
  fst (get_mass_flow a_solver 1 (- 500) 100 "idle" (a_world "tespy"))
  = Raise (ValueError "Mode must be charging or discharging.") /\
  fst (get_power a_solver 1 5 100 "idle" (a_world "tespy"))
  = Raise (ValueError "Mode must be charge or discharge.").
Proof.
  assert (Hr : in_range (self (a_world "tespy")) 100)
    by (split; vm_compute; discriminate).
  assert (Hc : "idle" <> "charging") by discriminate.
  assert (Hd : "idle" <> "discharging") by discriminate.
  destruct (invalid_mode_raises a_solver 0 (- 500) 5 100 "idle"
              (a_world "tespy") Hr Hc Hd) as [H1 H2].
  rewrite H1, H2. split; reflexivity.
Defined.

(** The specification's scenario: a power of -5 against the nominal
    power -1000, at pressure 100, in charging mode. *)
Lemma small_power_short_circuit_witness :
  get_mass_flow a_solver 1 (- 5) 100 "charging" (a_world "tespy")
  = (Ok (VTuple 0 0),
     add_event (Call "get_mass_flow" (- 5) 100 "charging")
       (a_world "tespy")).
Proof.
  apply small_power_short_circuit.
  - reflexivity.
  - split; vm_compute; discriminate.
  - left. split; [reflexivity|]. vm_compute. reflexivity.
Defined.

(** A mass flow of 50 against the maximum 10, at pressure 100, in
    charging mode. *)
Lemma clamp_recurses_once_witness :
  entered 2 (a_world "tespy")
    (get_power a_solver 2 50 100 "charging" (a_world "tespy")).
Proof.
  apply (clamp_recurses_once a_solver 0 50 100 "charging"
           (a_world "tespy") 10).
  - reflexivity.
  - split; vm_compute; discriminate.
  - left. split; reflexivity.
  - vm_compute. discriminate.
  - vm_compute. reflexivity.
Defined.

(** A power of -500 at pressure 100 on the instance as constructed,
    on which [get_power] has not been called. *)
Lemma mass_flow_before_cas_charge_witness :
  fst (get_mass_flow a_solver 1 (- 500) 100 "charging" (a_world "tespy"))
  = Ok (VTuple 0 0).
Proof.
  apply (mass_flow_before_cas_charge a_solver 0 (- 500) 100
           (a_world "tespy")).
  - reflexivity.
  - split; vm_compute; discriminate.
  - vm_compute. discriminate.
  - vm_compute. discriminate.
  - vm_compute. discriminate.
  - reflexivity.
Defined.

(** *** Further evaluations at the example configuration *)

(** A mass flow of 0.5 against the minimum of a tenth of 10, at
    pressure 100, in charging mode. *)
Lemma get_power_below_minimum_witness :
  get_power a_solver 1 0.5 100 "charging" (a_world "tespy")
  = (Ok 0,
     add_event
       (Print
          (MassflowBelowMinimum
             (massflow_min_rel (self (a_world "tespy")) * 10) 0.5))
       (add_event (Call "get_power" 0.5 100 "charging") (a_world "tespy"))).
Proof.
  apply (get_power_below_minimum a_solver 0 0.5 100 "charging"
           (a_world "tespy") 10).
  - reflexivity.
  - split; vm_compute; discriminate.
  - left. split; reflexivity.
  - vm_compute. reflexivity.
Defined.

(** A power of -500 at pressure 100, in charging mode. *)
Lemma get_mass_flow_returns_pair_witness :
  exists a b,
    fst (get_mass_flow a_solver 3 (- 500) 100 "charging" (a_world "tespy"))
    = Ok (VTuple a b).
Proof.
  apply (get_mass_flow_returns_pair a_solver 0 (- 500) 100 "charging"
           (a_world "tespy")).
  - reflexivity.
  - left. split; [reflexivity|]. split; vm_compute; discriminate.
Defined.

(** A mass flow of 5 at pressure 100 with a solver that raises. *)
Lemma get_power_propagates_witness :
  fst (get_power Inputs.a_failing_solver 1 5 100 "charging"
         (a_world "tespy"))
  = Raise (ExternalError 1).
Proof.
  apply (get_power_propagates Inputs.a_failing_solver 0 5 100 "charging"
           (a_world "tespy") charge 10 "charge" (ExternalError 1)).
  - reflexivity.
  - split; vm_compute; discriminate.
  - left. repeat split; reflexivity.
  - vm_compute. discriminate.
  - vm_compute. discriminate.
  - vm_compute. discriminate.
  - intros nw. reflexivity.
Defined.

(** A power of -500 at pressure 100 once [get_power] has been called:
    the solver finds the mass flow 5, between the limits 1 and 10. *)
Lemma mass_flow_as_scheduled_witness :
  fst (get_mass_flow a_solver 1 (- 500) 100 "charging"
         (Inputs.a_prepared_world "charging"))
  = Ok (VTuple 5 (- 500)).
Proof.
  refine (f_equal fst
            (mass_flow_as_scheduled a_solver 0 (- 500) 100
               (Inputs.a_prepared_world "charging")
               (snd
                  (solve a_solver charge
                     (mk_solve_call "offdesign" (Some "plant/charge_design")
                        None None)
                     (snd
                        (on_net charge
                           (imp_conns_set_attr "storage" (Some (Val 100))
                              (Some Nan))
                           (snd
                              (on_net charge
                                 (imp_busses_set_attr "power"
                                    (Some (Val (- 500))))
                                 (add_event
                                    (Call "get_mass_flow" (- 500) 100
                                       "charging")
                                    (Inputs.a_prepared_world
                                       "charging"))))))))
               1e-6 5 5 _ _ _ _ _ _ _ _ _ _)).
  - reflexivity.
  - split; vm_compute; discriminate.
  - vm_compute. discriminate.
  - vm_compute. reflexivity.
  - vm_compute. reflexivity.
  - vm_compute. discriminate.
  - vm_compute. reflexivity.
  - vm_compute. reflexivity.
  - vm_compute. discriminate.
  - vm_compute. discriminate.
Defined.

(** A mass flow of 5 at pressure 100 on the instance as constructed:
    the connection into the storage is found and becomes the
    reference. *)
Lemma get_power_sets_targets_witness :
  get_cas charge
    (self (snd (get_power a_solver 1 5 100 "charging" (a_world "tespy"))))
  = Some "storage".
Proof.
  apply (get_power_sets_targets a_solver 0 5 100 "charging"
           (a_world "tespy") charge 10
           (fun c => (t_label c =? "cas")%string) "storage").
  - reflexivity.
  - split; vm_compute; discriminate.
  - left. repeat split; reflexivity.
  - vm_compute. discriminate.
  - vm_compute. discriminate.
  - vm_compute. discriminate.
  - right. split; reflexivity.
Defined.

(** A power of -4000 at pressure 100 on the surface of slope -200. *)
Lemma spline_mass_flow_bounds_witness :
  self
    (snd
       (get_mass_flow a_solver 1 (- 4000) 100 "charging" (a_world "spline")))
  = self (a_world "spline")
  /\ disk
       (snd
          (get_mass_flow a_solver 1 (- 4000) 100 "charging"
             (a_world "spline")))
     = disk (a_world "spline").
Proof.
  refine ((fun H => conj (proj1 H) (proj1 (proj2 H)))
            (spline_mass_flow_bounds a_solver 0 (- 4000) 100 "charging"
               (a_world "spline") (a_spline (- 200)) (- 4000) _ _ _)).
  - reflexivity.
  - split; vm_compute; discriminate.
  - left. repeat split; reflexivity.
Defined.

(** A mass flow of 5 at pressure 100 on the surface of slope -200. *)
Lemma spline_power_value_witness :
  self (snd (get_power a_solver 2 5 100 "charging" (a_world "spline")))
  = self (a_world "spline").
Proof.
  apply (spline_power_value a_solver 0 5 100 "charging"
           (a_world "spline") (a_spline (- 200))).
  - reflexivity.
  - split; vm_compute; discriminate.
  - left. split; reflexivity.
Defined.

(** The reference to the connection of the storage, once set, through
    a further call. *)
Lemma cas_reference_kept_witness :
  get_cas charge
    (self
       (snd
          (get_mass_flow a_solver 3 (- 500) 100 "charging"
             (Inputs.a_prepared_world "charging"))))
  = Some "storage".
Proof.
  apply (cas_reference_kept a_solver charge "storage" 3 (- 500) 100
           "charging" (Inputs.a_prepared_world "charging")).
  vm_compute. reflexivity.
Defined.

(** A power of -50 at pressure 100: the solver finds the mass flow 0.5,
    below the minimum of 1. *)
Lemma mass_flow_limits_charging_witness :
  fst (get_mass_flow a_solver 1 (- 50) 100 "charging"
         (Inputs.a_prepared_world "charging"))
  = Ok (VTuple 0 0).
Proof.
  refine (f_equal fst
            (proj1
               (mass_flow_limits_charging a_solver 0 (- 50) 100
                  (Inputs.a_prepared_world "charging")
                  (snd
                     (solve a_solver charge
                        (mk_solve_call "offdesign"
                           (Some "plant/charge_design") None None)
                        (snd
                           (on_net charge
                              (imp_conns_set_attr "storage"
                                 (Some (Val 100)) (Some Nan))
                              (snd
                                 (on_net charge
                                    (imp_busses_set_attr "power"
                                       (Some (Val (- 50))))
                                    (add_event
                                       (Call "get_mass_flow" (- 50) 100
                                          "charging")
                                       (Inputs.a_prepared_world
                                          "charging"))))))))
                  1e-6 (1 # 2) _ _ _ _ _ _ _) _)).
  - reflexivity.
  - split; vm_compute; discriminate.
  - vm_compute. discriminate.
  - vm_compute. reflexivity.
  - vm_compute. reflexivity.
  - vm_compute. discriminate.
  - vm_compute. reflexivity.
  - vm_compute. reflexivity.
Defined.

(** The same in discharging mode, with a power of 50. *)
Lemma mass_flow_limits_discharging_witness :
  fst (get_mass_flow a_solver 1 50 100 "discharging"
         (Inputs.a_prepared_world "discharging"))
  = Ok (VTuple 0 0).
Proof.
  refine (f_equal fst
            (proj1
               (mass_flow_limits_discharging a_solver 0 50 100
                  (Inputs.a_prepared_world "discharging")
                  (snd
                     (solve a_solver discharge
                        (mk_solve_call "offdesign"
                           (Some "plant/discharge_design") None None)
                        (snd
                           (on_net discharge
                              (imp_conns_set_attr "storage"
                                 (Some (Val 100)) (Some Nan))
                              (snd
                                 (on_net discharge
                                    (imp_busses_set_attr "power"
                                       (Some (Val 50)))
                                    (add_event
                                       (Call "get_mass_flow" 50 100
                                          "discharging")
                                       (Inputs.a_prepared_world
                                          "discharging"))))))))
                  1e-6 (1 # 2) _ _ _ _ _ _ _) _)).
  - reflexivity.
  - split; vm_compute; discriminate.
  - vm_compute. discriminate.
  - vm_compute. reflexivity.
  - vm_compute. reflexivity.
  - vm_compute. discriminate.
  - vm_compute. reflexivity.
  - vm_compute. reflexivity.
Defined.

(** A call of [get_mass_flow] on the instance as constructed. *)
Lemma cas_charge_kept_absent_witness :
  cas_charge
    (self
       (snd
          (get_mass_flow a_solver 3 (- 500) 100 "charging"
             (a_world "tespy"))))
  = None.
Proof.
  apply (proj1 (cas_charge_kept_absent a_solver 3) (- 500) 100 "charging"
           (a_world "tespy")).
  reflexivity.
Defined.

(** The layout calculation at the example configuration. *)
Lemma layout_saves_charge_network_witness :
  lookup "plant/discharge_design"
    (disk (snd (power_plant_layout a_solver (a_world "tespy"))))
  = Some
      (tespy_charge
         (self (snd (power_plant_layout a_solver (a_world "tespy"))))).
Proof.
  apply (proj1
           (layout_saves_charge_network a_solver (a_world "tespy")
              (snd (power_plant_layout a_solver (a_world "tespy")))
              ltac:(vm_compute; reflexivity))).
Defined.

(** The two states written at the example configuration. *)
Lemma layout_designs_coincide_witness :
  disk (snd (power_plant_layout a_solver (a_world "tespy")))
  = [("plant/discharge_design",
      tespy_charge
        (self (snd (power_plant_layout a_solver (a_world "tespy")))));
     ("plant/charge_design",
      tespy_charge
        (self (snd (power_plant_layout a_solver (a_world "tespy")))))].
Proof.
  apply (layout_designs_coincide a_solver (a_world "tespy")
           (snd (power_plant_layout a_solver (a_world "tespy")))).
  vm_compute. reflexivity.
Defined.

(** A mass flow of 5 at pressure 100 on the surface of slope -100:
    the surface is negative at every mass flow between 0 and 3000, and
    so is its value at 5. *)
Lemma spline_discharge_power_negated_witness :
  fst (get_power a_solver 2 5 100 "discharging" (a_world "spline")) = Ok 0
  \/ exists e,
       fst (get_power a_solver 2 5 100 "discharging" (a_world "spline"))
       = Raise e.
Proof.
  apply (spline_discharge_power_negated a_solver 0 5 100 (a_world "spline")).
  - reflexivity.
  - split; vm_compute; discriminate.
  - intros x [Hx _].
    change (1e-5 <= Qabs (- 100 * x + - 100 * 5)).
    rewrite <- Qabs_opp.
    apply Qle_trans with (- (- 100 * x + - 100 * 5)); [|apply Qle_Qabs].
    decimals. lra.
Defined.

(** A power of -500 at pressure 100 with a solver that raises. *)
Lemma mass_flow_unsolved_witness :
  fst (get_mass_flow Inputs.a_failing_solver 1 (- 500) 100 "charging"
         (a_world "tespy"))
  = Ok (VTuple 0 0).
Proof.
  refine (f_equal fst
            (mass_flow_unsolved Inputs.a_failing_solver 0 (- 500) 100
               "charging" (a_world "tespy")
               (snd
                  (on_net charge
                     (imp_conns_set_attr "storage" (Some (Val 100))
                        (Some Nan))
                     (snd
                        (on_net charge
                           (imp_busses_set_attr "power"
                              (Some (Val (- 500))))
                           (add_event
                              (Call "get_mass_flow" (- 500) 100 "charging")
                              (a_world "tespy"))))))
               (snd
                  (solve Inputs.a_failing_solver charge
                     (mk_solve_call "offdesign" (Some "plant/charge_design")
                        None None)
                     (snd
                        (on_net charge
                           (imp_conns_set_attr "storage" (Some (Val 100))
                              (Some Nan))
                           (snd
                              (on_net charge
                                 (imp_busses_set_attr "power"
                                    (Some (Val (- 500))))
                                 (add_event
                                    (Call "get_mass_flow" (- 500) 100
                                       "charging")
                                    (a_world "tespy"))))))))
               charge "power" "storage" (- 1000) "plant/charge_design"
               (Log "error") (Raise (ExternalError 1)) _ _ _ _ _ _ _)).
  - reflexivity.
  - split; vm_compute; discriminate.
  - left. repeat split; reflexivity.
  - vm_compute. discriminate.
  - vm_compute. reflexivity.
  - vm_compute. reflexivity.
  - left. eexists. reflexivity.
Defined.

(** The example instance with a configuration that names a bus the
    charging network does not have. *)
Lemma mass_flow_key_error_witness :
  get_mass_flow a_solver 1 (- 500) 100 "charging" Inputs.a_misnamed_world
  = (Raise (KeyError "generator"),
     add_event (Call "get_mass_flow" (- 500) 100 "charging")
       Inputs.a_misnamed_world).
Proof.
  refine (proj1
            (mass_flow_key_error a_solver 0 (- 500) 100 "charging"
               Inputs.a_misnamed_world charge "generator" "storage"
               (- 1000) _ _ _ _) _).
  - reflexivity.
  - split; vm_compute; discriminate.
  - left. repeat split; reflexivity.
  - vm_compute. discriminate.
  - reflexivity.
Defined.

(** Three rounds at the example configuration. *)
Lemma get_mass_flow_fuel_witness :
  fst (get_mass_flow a_solver 3 (- 500) 100 "charging" (a_world "tespy"))
  <> OutOfFuel.
Proof.
  apply (get_mass_flow_fuel a_solver 0 (- 500) 100 "charging"
           (a_world "tespy")).
Defined.

End PowerPlantFacts.

(** ** The constructor *)

Module ConstructorFacts.

Import Constructor Examples.

(** An update returns or raises. *)
Lemma update_element_returns (index : nat) (e : element) (d : dict) :
  update_element index e d <> OutOfFuel.
Proof.
  unfold update_element.
  destruct (sequence e) as [[|k [|v [|x l]]]|]; try discriminate.
  destruct k; discriminate.
Qed.

Lemma update_sequence_returns (l : list element) :
  forall (index : nat) (d : dict), update_sequence index l d <> OutOfFuel.
Proof.
  induction l as [|e l IH]; intros index d; cbn [update_sequence];
    [discriminate|].
  pose proof (update_element_returns index e d) as He.
  destruct (update_element index e d) as [d'| |]; cbn [bind];
    [apply IH|discriminate|congruence].
Qed.

Lemma dict_update_returns (doc : json) (d : dict) :
  dict_update doc d <> OutOfFuel.
Proof.
  destruct doc as [kvs|[|s|items]]; cbn [dict_update];
    [discriminate|discriminate|apply update_sequence_returns..].
Qed.

(** C9.  Whatever the arguments, the file system and the statements
    that would follow, [__init__] ends by raising: no instance is
    constructed.  When the control file holds a JSON object, the
    exception is the [NameError] of the bare name [wdir], raised by
    the first statement after the file is loaded. *)
Theorem constructor_never_completes
    (remainder : dict -> pyobj -> result dict)
    (fs : filesystem) (cd : coupling_data)
    (min_well_depth : Q) (num_wells : Z) (p_max p_min : Q) :
  let path :=
    (working_dir cd ++ powerplant_path cd ++ scenario cd
       ++ ".powerplant_ctrl.json")%string in
  (exists e,
     __init__ remainder fs cd min_well_depth num_wells p_max p_min
     = Raise e) /\
  (forall entries,
     fs path = Some (JsonObject entries) ->
     __init__ remainder fs cd min_well_depth num_wells p_max p_min
     = Raise (NameError "wdir")).
Proof.
  intros path. unfold __init__. fold path. unfold open.
  split.
  - destruct (fs path) as [[entries|doc|]|]; cbn [bind json_load].
    + cbn [dict_update]. eexists. reflexivity.
    + destruct (dict_update (JValue doc) _) as [d| |] eqn:E; cbn [bind].
      * eexists. reflexivity.
      * eexists. reflexivity.
      * exfalso. exact (dict_update_returns _ _ E).
    + eexists. reflexivity.
    + eexists. reflexivity.
  - intros entries ->. reflexivity.
Qed.

(** The example control file exists and holds an object with every
    entry the constructor reads. *)
Lemma constructor_never_completes_witness :
  __init__ (fun self _ => Ok self) a_filesystem a_coupling_data 700 2 150 50
  = Raise (NameError "wdir").
Proof.
  apply (proj2 (constructor_never_completes (fun self _ => Ok self)
                  a_filesystem a_coupling_data 700 2 150 50))
    with (entries :=
            [("method", PStr "tespy");
             ("spline_charge_path", PStr "charge.csv");
             ("spline_discharge_path", PStr "discharge.csv");
             ("tespy_charge_path", PStr "charge");
             ("tespy_discharge_path", PStr "discharge")]).
  vm_compute. reflexivity.
Defined.

End ConstructorFacts.

(** ** The lookup tables *)

Module LookupFacts.

Import PowerPlant PyFacts Lookup Inputs.

Lemma hd_rev_last {A : Type} (l : list A) (d : A) : hd d (rev l) = last l d.
Proof.
  induction l as [|a l IH]; [reflexivity|].
  destruct l as [|b l]; [reflexivity|].
  change (last (a :: b :: l) d) with (last (b :: l) d).
  rewrite <- IH. change (rev (a :: b :: l)) with (rev (b :: l) ++ [a])%list.
  destruct (rev (b :: l)) eqn:E; [|reflexivity].
  apply (f_equal (@List.length A)) in E. rewrite length_rev in E.
  discriminate.
Qed.

Lemma descending_cons (x : Q) (t : list Q) :
  descending (x :: t) = Ok (ltb (last (x :: t) 0) x).
Proof.
  unfold descending. rewrite <- (hd_rev_last (x :: t) 0).
  destruct (rev (x :: t)) eqn:E; [|reflexivity].
  apply (f_equal (@List.length Q)) in E. rewrite length_rev in E. discriminate.
Qed.

Lemma sorted_snoc {A : Type} (R : A -> A -> Prop) (l : list A) (a : A) :
  StronglySorted R l -> Forall (fun x => R x a) l ->
  StronglySorted R (l ++ [a]).
Proof.
  induction 1 as [|b l Hs IH Hb]; intros Hall; cbn.
  - constructor; constructor.
  - inversion Hall; subst. constructor; [apply IH; assumption|].
    apply Forall_app. split; [assumption|]. constructor; [assumption|constructor].
Qed.

Lemma sorted_rev {A : Type} (R : A -> A -> Prop) (l : list A) :
  StronglySorted R l -> StronglySorted (fun x y => R y x) (rev l).
Proof.
  induction 1 as [|a l Hs IH Ha]; cbn; [constructor|].
  apply sorted_snoc; [exact IH|]. apply Forall_rev. exact Ha.
Qed.

Lemma last_in {A : Type} (b : A) (l : list A) (d : A) : In (last (b :: l) d) (b :: l).
Proof.
  revert b. induction l as [|c l IH]; intros b; [left; reflexivity|].
  right. apply IH.
Qed.

Lemma descending_increasing (a : list Q) :
  a <> [] -> increasing a -> descending a = Ok false.
Proof.
  intros Hne Hs. destruct a as [|x t]; [congruence|].
  rewrite descending_cons. f_equal. apply ltb_ge.
  inversion Hs as [|? ? _ Hall]; subst.
  destruct (last_in x t 0) as [<-|Hin]; [lra|].
  rewrite Forall_forall in Hall. apply Qlt_le_weak, Hall, Hin.
Qed.

Lemma descending_decreasing (a : list Q) :
  a <> [] -> decreasing a ->
  exists d, descending a = Ok d /\ increasing (if d then rev a else a).
Proof.
  intros Hne Hs. destruct a as [|x t]; [congruence|].
  rewrite descending_cons. eexists. split; [reflexivity|].
  destruct (ltb (last (x :: t) 0) x) eqn:E.
  - apply (sorted_rev _ _ Hs).
  - destruct t as [|b t]; [constructor; constructor|].
    apply ltb_ge in E. inversion Hs as [|? ? _ Hall]; subst.
    rewrite Forall_forall in Hall.
    assert (H : last (x :: b :: t) 0 < x) by (apply Hall, (last_in b t 0)).
    lra.
Qed.

Lemma descending_monotone (a : list Q) :
  a <> [] -> increasing a \/ decreasing a ->
  exists d, descending a = Ok d /\ increasing (if d then rev a else a).
Proof.
  intros Hne [H|H].
  - exists false. split; [apply descending_increasing; assumption|exact H].
  - apply descending_decreasing; assumption.
Qed.

Lemma descending_rev (a : list Q) :
  descending a = Ok true -> descending (rev a) = Ok false.
Proof.
  unfold descending.
  destruct a as [|x t]; [discriminate|].
  destruct (rev (x :: t)) as [|l r] eqn:E; [discriminate|].
  rewrite <- E, rev_involutive.
  intros [= H]. apply ltb_lt in H. f_equal. apply ltb_ge. lra.
Qed.

Section Load.

Variable float : string -> result Q.
Variable read_csv : string -> result dataframe.
Variable RectBivariateSpline :
  list Q -> list Q -> list (list Q) -> result spline.

(** Axes that rise or fall throughout are handed on rising. *)
Lemma axes_increasing (df : dataframe) (cols : list Q) :
  map_float float (df_columns df) = Ok cols ->
  df_index df <> [] ->
  cols <> [] ->
  increasing (df_index df) \/ decreasing (df_index df) ->
  increasing cols \/ decreasing cols ->
  exists x1 x2 y,
    axes float df = Ok (x1, x2, y) /\ increasing x1 /\ increasing x2.
Proof.
  intros Hcols Hne1 Hne2 Hm1 Hm2. unfold axes.
  destruct (descending_monotone _ Hne1 Hm1) as (d1 & -> & Hi1).
  destruct (descending_monotone _ Hne2 Hm2) as (d2 & Hd2 & Hi2).
  cbn [bind]. destruct d1; rewrite Hcols; cbn [bind]; rewrite Hd2; cbn [bind];
    destruct d2; do 3 eexists; (split; [reflexivity|split; assumption]).
Qed.

(** X17.  When the table read from the file has mass flows and
    pressures that rise throughout or fall throughout, each in its own
    direction, [load_lookup] returns what [RectBivariateSpline] makes of
    two strictly increasing axes, which is what the fit asks for. *)
Theorem load_lookup_increasing (path : string) (df : dataframe)
    (cols : list Q) :
  read_csv path = Ok df ->
  map_float float (df_columns df) = Ok cols ->
  df_index df <> [] ->
  cols <> [] ->
  increasing (df_index df) \/ decreasing (df_index df) ->
  increasing cols \/ decreasing cols ->
  exists x1 x2 y,
    load_lookup read_csv float RectBivariateSpline path
    = RectBivariateSpline x1 x2 y /\
    increasing x1 /\ increasing x2.
Proof.
  intros Hread Hcols Hne1 Hne2 Hm1 Hm2.
  destruct (axes_increasing df cols Hcols Hne1 Hne2 Hm1 Hm2)
    as (x1 & x2 & y & Hax & H1 & H2).
  exists x1, x2, y. split; [|split; assumption].
  unfold load_lookup. rewrite Hread. cbn [bind]. rewrite Hax. reflexivity.
Qed.

(** X18.  Whatever the table, the axes handed to the fit are those of
    the table or their reversals, and neither starts above its end: the
    only thing [load_lookup] looks at is the two ends of each axis. *)
Theorem axes_ends (df : dataframe) (x1 x2 : list Q) (y : list (list Q)) :
  axes float df = Ok (x1, x2, y) ->
  exists cols,
    map_float float (df_columns df) = Ok cols /\
    (x1 = df_index df \/ x1 = rev (df_index df)) /\
    (x2 = cols \/ x2 = rev cols) /\
    descending x1 = Ok false /\
    descending x2 = Ok false.
Proof.
  unfold axes.
  destruct (descending (df_index df)) as [d1| |] eqn:E1; [|discriminate..].
  cbn [bind].
  destruct d1; (destruct (map_float float (df_columns df)) as [cols| |]; [|discriminate..]);
    cbn [bind]; (destruct (descending cols) as [d2| |] eqn:E2; [|discriminate..]);
    cbn [bind]; destruct d2; intros [= <- <- <-]; exists cols;
    repeat split; auto using descending_rev.
Qed.

Lemma cell_rev_rows (y : list (list Q)) (i j : nat) :
  (i < List.length y)%nat ->
  cell (rev y) (List.length y - S i) j = cell y i j.
Proof.
  intros Hi. unfold cell. rewrite rev_nth by lia.
  replace (List.length y - S (List.length y - S i))%nat with i by lia.
  reflexivity.
Qed.

Lemma cell_rev_cols (y : list (list Q)) (cols i j : nat) :
  Forall (fun row => List.length row = cols) y ->
  (i < List.length y)%nat ->
  (j < cols)%nat ->
  cell (map (@rev Q) y) i (cols - S j) = cell y i j.
Proof.
  intros Hall Hi Hj. unfold cell.
  assert (Hrow : List.length (nth i y []) = cols).
  { rewrite Forall_forall in Hall. apply Hall, nth_In, Hi. }
  rewrite (nth_indep _ [] (rev []))
    by (rewrite length_map; exact Hi).
  rewrite (map_nth (@rev Q)). rewrite rev_nth by lia.
  rewrite Hrow. replace (cols - S (cols - S j))%nat with j by lia.
  reflexivity.
Qed.

Lemma nth_rev_back (a : list Q) (i : nat) :
  (i < List.length a)%nat ->
  nth (List.length a - S i) (rev a) 0 = nth i a 0.
Proof.
  intros Hi. rewrite rev_nth by lia.
  replace (List.length a - S (List.length a - S i))%nat with i by lia.
  reflexivity.
Qed.

(** X19.  The reversals keep the table together: every cell of the
    table, with its mass flow and its pressure, is found in the matrix
    handed to the fit at the place of that mass flow and that pressure
    on the axes handed to the fit. *)
Theorem axes_cells (df : dataframe) (cols x1 x2 : list Q)
    (y : list (list Q)) (i j : nat) :
  axes float df = Ok (x1, x2, y) ->
  map_float float (df_columns df) = Ok cols ->
  rectangular (List.length (df_index df)) (List.length cols) (df_values df) ->
  (i < List.length (df_index df))%nat ->
  (j < List.length cols)%nat ->
  exists i' j',
    (i' < List.length x1)%nat /\
    (j' < List.length x2)%nat /\
    nth i' x1 0 = nth i (df_index df) 0 /\
    nth j' x2 0 = nth j cols 0 /\
    cell y i' j' = cell (df_values df) i j.
Proof.
  intros Hax Hcols [Hrows Hall] Hi Hj. revert Hax. unfold axes.
  destruct (descending (df_index df)) as [d1| |]; [|discriminate..].
  cbn [bind]. rewrite Hcols.
  destruct d1; cbn [bind];
    (destruct (descending cols) as [d2| |]; [|discriminate..]);
    cbn [bind]; destruct d2; intros [= <- <- <-].
  - exists (List.length (df_index df) - S i)%nat,
      (List.length cols - S j)%nat.
    rewrite !length_rev. repeat split; try lia.
    + apply nth_rev_back, Hi.
    + apply nth_rev_back, Hj.
    + rewrite cell_rev_cols;
        [|apply Forall_rev, Hall|rewrite length_rev; lia|exact Hj].
      rewrite <- Hrows. apply cell_rev_rows. lia.
  - exists (List.length (df_index df) - S i)%nat, j.
    rewrite !length_rev. repeat split; try lia.
    + apply nth_rev_back, Hi.
    + rewrite <- Hrows. apply cell_rev_rows. lia.
  - exists i, (List.length cols - S j)%nat.
    rewrite !length_rev. repeat split; try lia.
    + apply nth_rev_back, Hj.
    + apply cell_rev_cols; [exact Hall|lia|exact Hj].
  - exists i, j. repeat split; assumption.
Qed.

(** X20.  A table without rows, or without columns besides the index,
    makes [load_lookup] raise an [IndexError] at the comparison of the
    ends of the axis; the fit is not reached. *)
Theorem load_lookup_empty (path : string) (df : dataframe) :
  read_csv path = Ok df ->
  df_index df = [] \/ df_columns df = [] ->
  load_lookup read_csv float RectBivariateSpline path = Raise IndexError.
Proof.
  intros Hread Hempty. unfold load_lookup, axes. rewrite Hread. cbn [bind].
  destruct (df_index df) as [|x t] eqn:E1.
  - reflexivity.
  - destruct Hempty as [H|H]; [discriminate|]. rewrite H.
    rewrite descending_cons. cbn [bind map_float].
    destruct (ltb _ _); reflexivity.
Qed.

End Load.

(** *** Evaluations at the example table *)

(** The table with mass flows 3, 2, 1 and pressures 150, 100, 50. *)
Lemma load_lookup_increasing_witness :
  exists x1 x2 y,
    load_lookup a_read_csv a_float a_fit "charge.csv" = a_fit x1 x2 y /\
    increasing x1 /\ increasing x2.
Proof.
  apply (load_lookup_increasing a_float a_read_csv a_fit "charge.csv"
           a_dataframe [150; 100; 50]).
  - reflexivity.
  - reflexivity.
  - discriminate.
  - discriminate.
  - right. repeat constructor.
  - right. repeat constructor.
Defined.

(** Both axes of the table are reversed. *)
Lemma axes_ends_witness :
  exists cols,
    map_float a_float (df_columns a_dataframe) = Ok cols /\
    ([1; 2; 3] = df_index a_dataframe
     \/ [1; 2; 3] = rev (df_index a_dataframe)) /\
    ([50; 100; 150] = cols \/ [50; 100; 150] = rev cols) /\
    descending [1; 2; 3] = Ok false /\
    descending [50; 100; 150] = Ok false.
Proof.
  apply (axes_ends a_float a_dataframe [1; 2; 3] [50; 100; 150]
           [[11; 12; 13]; [21; 22; 23]; [31; 32; 33]]).
  reflexivity.
Defined.

(** The cell of the mass flow 3 and the pressure 150, first in the
    table and last in the matrix of the fit. *)
Lemma axes_cells_witness :
  exists i' j',
    (i' < 3)%nat /\ (j' < 3)%nat /\
    nth i' [1; 2; 3] 0 = 3 /\
    nth j' [50; 100; 150] 0 = 150 /\
    cell [[11; 12; 13]; [21; 22; 23]; [31; 32; 33]] i' j' = 33.
Proof.
  apply (axes_cells a_float a_dataframe [150; 100; 50] [1; 2; 3]
           [50; 100; 150] [[11; 12; 13]; [21; 22; 23]; [31; 32; 33]] 0 0).
  - reflexivity.
  - reflexivity.
  - split; [reflexivity|]. repeat constructor.
  - simpl. lia.
  - simpl. lia.
Defined.

(** The table without rows. *)
Lemma load_lookup_empty_witness :
  load_lookup an_empty_read_csv a_float a_fit "charge.csv"
  = Raise IndexError.
Proof.
  apply (load_lookup_empty a_float an_empty_read_csv a_fit "charge.csv"
           {| df_index := []; df_columns := ["50"]%string;
              df_values := [] |}).
  - reflexivity.
  - left. reflexivity.
Defined.

End LookupFacts.

(** ** The root finder, forwards *)

Module NewtonForward.

Import Newton PyFacts NewtonFacts Iterates Examples.

Section Loop.

Context {P : Type}.
Variables (func deriv : P -> Q -> Q) (params : P) (k : Q).
Variables (valmin valmax : Q) (imax : Z).

Local Abbreviation loop :=
  (newton_loop func deriv params k valmin valmax imax).
Local Abbreviation update :=
  (newton_update func deriv params k valmin valmax).
Local Abbreviation iter :=
  (iterate func deriv params k valmin valmax).

(** With a small residual the loop is left at once. *)
Lemma newton_loop_exit (fuel : nat) (val res : Q) (i : Z) :
  Qabs res < 1e-5 -> loop fuel val res i = (Ok val, i).
Proof.
  intros H. apply geb_lt in H. destruct fuel; cbn [newton_loop];
    rewrite H; reflexivity.
Qed.

(** From a state whose residual is large, if the iterate after [n]
    updates is the first with a small residual and the cap allows
    [n + 1] more rounds, the loop returns the update of that iterate. *)
Lemma newton_loop_converges (n : nat) :
  forall (fuel : nat) (val res : Q) (i : Z) (xn x : Q),
    1e-5 <= Qabs res ->
    (n < fuel)%nat ->
    (i + Z.of_nat n + 1 <= imax)%Z ->
    (forall j, (j < n)%nat -> unconverged func deriv params k valmin valmax
                                val j) ->
    iter n val = Ok xn ->
    Qabs (k - func params xn) < 1e-5 ->
    update xn = Ok x ->
    loop fuel val res i = (Ok x, (i + Z.of_nat n + 1)%Z).
Proof.
  induction n as [|n IH]; intros fuel val res i xn x Hres Hfuel Hcap Hun
    Hit Hsmall Hup; (destruct fuel as [|fuel]; [lia|]).
  - cbn [iterate] in Hit. injection Hit as <-.
    rewrite (newton_loop_step _ _ _ _ _ _ _ _ _ _ _ _ Hres Hup).
    destruct (Z.ltb_spec imax (i + 1)); [lia|].
    rewrite newton_loop_exit by exact Hsmall.
    f_equal. lia.
  - cbn [iterate] in Hit.
    destruct (update val) as [v1| |] eqn:E1; [|discriminate..].
    rewrite (newton_loop_step _ _ _ _ _ _ _ _ _ _ _ _ Hres E1).
    destruct (Z.ltb_spec imax (i + 1)); [lia|].
    destruct (Hun O ltac:(lia)) as (x0 & Hx0 & Hr0).
    cbn [iterate] in Hx0. injection Hx0 as <-.
    rewrite (IH fuel v1 (k - func params val) (i + 1)%Z xn x);
      [f_equal; lia|exact Hr0|lia|lia| |exact Hit|exact Hsmall|exact Hup].
    intros j Hj. destruct (Hun (S j) ltac:(lia)) as (xj & Hxj & Hrj).
    exists xj. split; [|exact Hrj].
    cbn [iterate] in Hxj. rewrite E1 in Hxj. exact Hxj.
Qed.

(** If none of the first [n] iterates has a small residual, where [n]
    rounds are what the cap still allows, and the update after them is
    defined, the loop returns [0] with the count one above the cap. *)
Lemma newton_loop_gives_up (n : nat) :
  forall (fuel : nat) (val res : Q) (i : Z) (xn x : Q),
    1e-5 <= Qabs res ->
    (n < fuel)%nat ->
    (i + Z.of_nat n = imax)%Z ->
    (forall j, (j < n)%nat -> unconverged func deriv params k valmin valmax
                                val j) ->
    iter n val = Ok xn ->
    update xn = Ok x ->
    loop fuel val res i = (Ok 0, (imax + 1)%Z).
Proof.
  induction n as [|n IH]; intros fuel val res i xn x Hres Hfuel Hcap Hun
    Hit Hup; (destruct fuel as [|fuel]; [lia|]).
  - cbn [iterate] in Hit. injection Hit as <-.
    rewrite (newton_loop_step _ _ _ _ _ _ _ _ _ _ _ _ Hres Hup).
    destruct (Z.ltb_spec imax (i + 1)); [|lia].
    f_equal. lia.
  - cbn [iterate] in Hit.
    destruct (update val) as [v1| |] eqn:E1; [|discriminate..].
    rewrite (newton_loop_step _ _ _ _ _ _ _ _ _ _ _ _ Hres E1).
    destruct (Z.ltb_spec imax (i + 1)); [lia|].
    destruct (Hun O ltac:(lia)) as (x0 & Hx0 & Hr0).
    cbn [iterate] in Hx0. injection Hx0 as <-.
    apply (IH fuel v1 (k - func params val) (i + 1)%Z xn x);
      [exact Hr0|lia|lia| |exact Hit|exact Hup].
    intros j Hj. destruct (Hun (S j) ltac:(lia)) as (xj & Hxj & Hrj).
    exists xj. split; [|exact Hrj].
    cbn [iterate] in Hxj. rewrite E1 in Hxj. exact Hxj.
Qed.

End Loop.

(** X1.  If the iterate after [n] updates of the start value is the
    first whose residual [|k - f x|] is below [1e-5], and [n + 1] does
    not exceed the cap, [newton] returns the clamped update of that
    iterate after [n + 1] rounds. *)
Theorem newton_converges {P : Type} (func deriv : P -> Q -> Q) (params : P)
    (k : Q) (kw : kwargs) (n : nat) (xn x : Q) :
  let val0 := get (kw_val0 kw) 200 in
  let valmin := get (kw_valmin kw) 0 in
  let valmax := get (kw_valmax kw) 3000 in
  let imax := get (kw_imax kw) 10%Z in
  (Z.of_nat n + 1 <= imax)%Z ->
  (forall j, (j < n)%nat ->
             unconverged func deriv params k valmin valmax val0 j) ->
  iterate func deriv params k valmin valmax n val0 = Ok xn ->
  Qabs (k - func params xn) < 1e-5 ->
  newton_update func deriv params k valmin valmax xn = Ok x ->
  newton_run func deriv params k kw = (Ok x, (Z.of_nat n + 1)%Z).
Proof.
  intros val0 valmin valmax imax Hcap Hun Hit Hsmall Hup.
  unfold newton_run. fold val0 valmin valmax imax.
  rewrite (newton_loop_converges func deriv params k valmin valmax imax n
             (S (Z.to_nat imax)) val0 1 0%Z xn x);
    [reflexivity| |lia|lia|exact Hun|exact Hit|exact Hsmall|exact Hup].
  vm_compute. discriminate.
Qed.

(** At [f(x) = x] and target 250 the start value 200 has the residual
    50 and the iterate after one update has the residual 0. *)
Lemma newton_converges_witness :
  newton_run identity identity_deriv tt 250 no_kwargs
  = (Ok (200 + (250 - 200) / 1 + (250 - (200 + (250 - 200) / 1)) / 1), 2%Z).
Proof.
  apply (newton_converges identity identity_deriv tt 250 no_kwargs 1
           (200 + (250 - 200) / 1)).
  - simpl. lia.
  - intros j Hj. assert (j = O) by lia. subst j. exists 200.
    split; [reflexivity|]. vm_compute. discriminate.
  - vm_compute. reflexivity.
  - vm_compute. reflexivity.
  - vm_compute. reflexivity.
Defined.

(** X2.  With a cap [imax >= 0]: if none of the iterates before the
    one after [imax] updates has a residual below [1e-5], [newton]
    makes one more update and returns exactly [0] with the count
    [imax + 1], whatever the residual of the last iterates. *)
Theorem newton_gives_up {P : Type} (func deriv : P -> Q -> Q) (params : P)
    (k : Q) (kw : kwargs) (xn x : Q) :
  let val0 := get (kw_val0 kw) 200 in
  let valmin := get (kw_valmin kw) 0 in
  let valmax := get (kw_valmax kw) 3000 in
  let imax := get (kw_imax kw) 10%Z in
  (0 <= imax)%Z ->
  (forall j, (j < Z.to_nat imax)%nat ->
             unconverged func deriv params k valmin valmax val0 j) ->
  iterate func deriv params k valmin valmax (Z.to_nat imax) val0 = Ok xn ->
  newton_update func deriv params k valmin valmax xn = Ok x ->
  newton_run func deriv params k kw = (Ok 0, (imax + 1)%Z).
Proof.
  intros val0 valmin valmax imax Hcap Hun Hit Hup.
  unfold newton_run. fold val0 valmin valmax imax.
  apply (newton_loop_gives_up func deriv params k valmin valmax imax
           (Z.to_nat imax) (S (Z.to_nat imax)) val0 1 0%Z xn x);
    [|lia|lia|exact Hun|exact Hit|exact Hup].
  vm_compute. discriminate.
Qed.

(** At [f(x) = x], target 250 and the cap 1, the start value 200 has
    the residual 50; the iterate after one update, 250, has the
    residual 0, and [0] is returned all the same. *)
Lemma newton_gives_up_witness :
  newton_run identity identity_deriv tt 250
    (mk_kwargs None None None (Some 1%Z))
  = (Ok 0, 2%Z).
Proof.
  apply (newton_gives_up identity identity_deriv tt 250
           (mk_kwargs None None None (Some 1%Z))
           (200 + (250 - 200) / 1)
           (200 + (250 - 200) / 1 + (250 - (200 + (250 - 200) / 1)) / 1)).
  - simpl. lia.
  - intros j Hj. assert (j = O) by (simpl in Hj; lia). subst j. exists 200.
    split; [reflexivity|]. vm_compute. discriminate.
  - vm_compute. reflexivity.
  - vm_compute. reflexivity.
Defined.

(** X3.  With a cap below one, [newton] returns [0] after its first
    round, whatever the function and the target, provided the update
    of the start value is defined. *)
Theorem newton_cap_below_one {P : Type} (func deriv : P -> Q -> Q)
    (params : P) (k : Q) (kw : kwargs) (x : Q) :
  (get (kw_imax kw) 10 < 1)%Z ->
  newton_update func deriv params k (get (kw_valmin kw) 0)
    (get (kw_valmax kw) 3000) (get (kw_val0 kw) 200) = Ok x ->
  newton_run func deriv params k kw = (Ok 0, 1%Z).
Proof.
  intros Hcap Hup. unfold newton_run.
  assert (Hres : 1e-5 <= Qabs 1) by (vm_compute; discriminate).
  rewrite (newton_loop_step _ _ _ _ _ _ _ _ _ _ _ _ Hres Hup).
  destruct (Z.ltb_spec (get (kw_imax kw) 10%Z) (0 + 1)); [reflexivity|lia].
Qed.

(** At [f(x) = x], target 200, the start value is the root; with the
    cap 0 the result is [0]. *)
Lemma newton_cap_below_one_witness :
  newton_run identity identity_deriv tt 200
    (mk_kwargs None None None (Some 0%Z))
  = (Ok 0, 1%Z).
Proof.
  apply (newton_cap_below_one identity identity_deriv tt 200
           (mk_kwargs None None None (Some 0%Z))
           (200 + (200 - 200) / 1)).
  - simpl. lia.
  - vm_compute. reflexivity.
Defined.

End NewtonForward.
